(** * Moderation pipeline of [modai.py]: a shallow embedding and its properties

    The development follows the source file top-down:

    - [Py]     the fragment of Python's dynamic values the pipeline touches
               (the values [json.loads] produces, dictionaries with insertion
               order, exceptions as a result type);
    - [Json]   an executable reference reader for JSON texts, used wherever a
               statement is evaluated on a concrete response body;
    - the functions of [modai.py] under their own names:
               [call_llama_moderation], [process_comments], [generate_report],
               the checks of [validate_input_file] that run on a loaded
               frame, and the three steps of [main] that connect them;
    - the properties of the design specification, stated and proved (or
      refuted) on those definitions.

    What lies outside the repository is a parameter.  [Env] collects the
    collaborators of the moderation loop: the word-list matcher
    ([profanity.contains_profanity]), the remote endpoint ([requests.post]
    and the decoding of its envelope) and [json.loads].  The report takes the
    sorting routine behind [DataFrame.sort_values] as its parameter.
    Printing, progress bars and the formatting of numbers are not modelled: a
    report is the data that [generate_report] prints. *)

From Stdlib Require Import ZArith List String Ascii Bool Lia QArith.
From Stdlib Require Import Floats.SpecFloat.
From Stdlib Require Import Sorting.Permutation Sorting.Sorted.
Import ListNotations.

Local Open Scope string_scope.
Local Open Scope Z_scope.

#[local] Set Warnings "-register-all".

(* ================================================================== *)
(** * Python values *)
(* ================================================================== *)

Module Py.

(** The values [json.loads] can return, which are also the cells of the
    frames and the entries of the per-comment dictionaries.  A [str] is the
    UTF-8 encoding of the Python string; a [float] is an IEEE-754 datum.  A
    dictionary keeps its entries in insertion order, as Python's does. *)
Inductive pyval : Type :=
| PNone
| PBool (b : bool)
| PInt (z : Z)
| PFloat (f : spec_float)
| PStr (s : string)
| PList (l : list pyval)
| PDict (d : list (pyval * pyval)).

Definition dict : Type := list (pyval * pyval).

(** The exceptions that occur in [modai.py] and in the library calls it makes.
    [JSONDecodeError] is the only one the inner handler of
    [call_llama_moderation] catches; all of them are instances of
    [Exception]. *)
Inductive exn : Type :=
| KeyError (key : string)
| TypeError
| ValueError
| AttributeError
| ZeroDivisionError
| JSONDecodeError.

(** A computation either returns or raises. *)
Inductive res (A : Type) : Type :=
| Ok (a : A)
| Raise (e : exn).
Arguments Ok {A} a.
Arguments Raise {A} e.

Definition rbind {A B} (c : res A) (k : A -> res B) : res B :=
  match c with
  | Ok a => k a
  | Raise e => Raise e
  end.

Definition returns {A} (c : res A) : bool :=
  match c with Ok _ => true | Raise _ => false end.

(** ** Numbers

    Python compares an [int] with a [float] exactly.  Every finite number of
    the fragment is a dyadic rational [m * 2^e]; [bool] is a subtype of
    [int]. *)
Inductive num : Type :=
| Fin (m e : Z)
| Inf (negative : bool)
| NaN.

Definition num_of_float (f : spec_float) : num :=
  match f with
  | S754_zero _ => Fin 0 0
  | S754_infinity s => Inf s
  | S754_nan => NaN
  | S754_finite s m e => Fin (if s then Z.neg m else Z.pos m) e
  end.

Definition as_num (v : pyval) : option num :=
  match v with
  | PBool b => Some (Fin (Z.b2z b) 0)
  | PInt z => Some (Fin z 0)
  | PFloat f => Some (num_of_float f)
  | _ => None
  end.

(** Both mantissas brought to the smaller exponent. *)
Definition align (m1 e1 m2 e2 : Z) : Z * Z :=
  let e := Z.min e1 e2 in
  (m1 * 2 ^ (e1 - e), m2 * 2 ^ (e2 - e)).

Definition num_ltb (a b : num) : bool :=
  match a, b with
  | NaN, _ | _, NaN => false
  | Fin m1 e1, Fin m2 e2 => let '(x, y) := align m1 e1 m2 e2 in x <? y
  | Inf true, Inf true => false
  | Inf true, _ => true
  | Inf false, _ => false
  | Fin _ _, Inf s => negb s
  end.

Definition num_eqb (a b : num) : bool :=
  match a, b with
  | Fin m1 e1, Fin m2 e2 => let '(x, y) := align m1 e1 m2 e2 in x =? y
  | Inf s, Inf s' => Bool.eqb s s'
  | _, _ => false
  end.

(** [v < m] for an [int] [m]: defined on numbers, [TypeError] on [None],
    strings, lists and dictionaries. *)
Definition py_lt_int (v : pyval) (m : Z) : res bool :=
  match as_num v with
  | Some n => Ok (num_ltb n (Fin m 0))
  | None => Raise TypeError
  end.

(** [v == True], as pandas evaluates it cell by cell. *)
Definition py_eq_True (v : pyval) : bool :=
  match as_num v with
  | Some n => num_eqb n (Fin 1 0)
  | None => false
  end.

(** Truth value of an object in a condition. *)
Definition py_truthy (v : pyval) : bool :=
  match v with
  | PNone => false
  | PBool b => b
  | PInt z => negb (z =? 0)
  | PFloat f => match f with S754_zero _ => false | _ => true end
  | PStr s => negb (s =? "")%string
  | PList l => match l with [] => false | _ => true end
  | PDict d => match d with [] => false | _ => true end
  end.

(** ** Strings *)

(** A code point starts at every byte that is not a UTF-8 continuation byte
    ([0x80..0xBF]); [py_chars] lists the code points of a string, which is
    what iterating a [str] yields. *)
Definition is_continuation (c : ascii) : bool :=
  let n := nat_of_ascii c in (128 <=? n)%nat && (n <? 192)%nat.

Fixpoint take_continuation (s : string) : string * string :=
  match s with
  | String c r =>
      if is_continuation c
      then let '(h, t) := take_continuation r in (String c h, t)
      else (EmptyString, s)
  | EmptyString => (EmptyString, EmptyString)
  end.

Fixpoint py_chars_fuel (fuel : nat) (s : string) : list string :=
  match fuel, s with
  | S fuel', String c r =>
      let '(h, t) := take_continuation r in
      String c h :: py_chars_fuel fuel' t
  | _, _ => []
  end.

Definition py_chars (s : string) : list string :=
  py_chars_fuel (String.length s) s.

(** [sub in s] on strings. *)
Definition str_contains (s sub : string) : bool :=
  match String.index 0 sub s with Some _ => true | None => false end.

(** [s.find(c)] and [s.rfind(c)] for a one-character ASCII [c]: the position
    of the first (last) occurrence, [-1] when there is none.  Positions count
    bytes here and code points in Python; an ASCII character is one byte and
    never part of a longer code point, so that the slice between two such
    positions is the same text in both. *)
Fixpoint str_find (c : ascii) (s : string) : Z :=
  match s with
  | EmptyString => -1
  | String a r =>
      if Ascii.eqb a c then 0
      else let i := str_find c r in if i =? -1 then -1 else i + 1
  end.

Fixpoint str_rfind (c : ascii) (s : string) : Z :=
  match s with
  | EmptyString => -1
  | String a r =>
      let i := str_rfind c r in
      if negb (i =? -1) then i + 1
      else if Ascii.eqb a c then 0 else -1
  end.

(** [s[start:stop]] for [0 <= start] and [0 <= stop]; empty when
    [stop <= start]. *)
Definition str_slice (s : string) (start stop : Z) : string :=
  String.substring (Z.to_nat start) (Z.to_nat (stop - start)) s.

(** ** Dictionaries *)

Definition hashable (v : pyval) : bool :=
  match v with
  | PList _ | PDict _ => false
  | _ => true
  end.

(** Equality of two hashable keys: numbers by value ([1], [1.0] and [True]
    are one key), strings by content.  The [NaN] of [json.loads] is one
    object, which a dictionary finds again by identity. *)
Definition key_eqb (a b : pyval) : bool :=
  match a, b with
  | PNone, PNone => true
  | PStr s, PStr t => (s =? t)%string
  | PFloat S754_nan, PFloat S754_nan => true
  | PList _, _ | _, PList _ | PDict _, _ | _, PDict _ => false
  | _, _ =>
      match as_num a, as_num b with
      | Some x, Some y => num_eqb x y
      | _, _ => false
      end
  end.

Fixpoint dict_get (d : dict) (k : pyval) : option pyval :=
  match d with
  | [] => None
  | (k', v) :: r => if key_eqb k' k then Some v else dict_get r k
  end.

(** [d[k] = v]: the value of an existing key is replaced where it stands, a
    new key goes to the end. *)
Fixpoint dict_set (d : dict) (k v : pyval) : dict :=
  match d with
  | [] => [(k, v)]
  | (k', v') :: r =>
      if key_eqb k' k then (k', v) :: r else (k', v') :: dict_set r k v
  end.

Definition dict_keys (d : dict) : list pyval := map fst d.

(** [d[k]] with a string key. *)
Definition dict_getitem (d : dict) (k : string) : res pyval :=
  match dict_get d (PStr k) with
  | Some v => Ok v
  | None => Raise (KeyError k)
  end.

(** [d.update(other)] for a dictionary [other]. *)
Definition dict_merge (d other : dict) : dict :=
  fold_left (fun acc kv => dict_set acc (fst kv) (snd kv)) other d.

(** What [list(item)] is for an element of an update sequence. *)
Definition as_sequence (item : pyval) : option (list pyval) :=
  match item with
  | PList l => Some l
  | PStr s => Some (map PStr (py_chars s))
  | PDict d => Some (dict_keys d)
  | _ => None
  end.

(** [d.update(seq)] for a sequence of key/value pairs, element by element:
    [TypeError] on an element that is no sequence or whose key is not
    hashable, [ValueError] on one whose length is not 2. *)
Fixpoint dict_merge_seq (d : dict) (items : list pyval) : res dict :=
  match items with
  | [] => Ok d
  | item :: rest =>
      match as_sequence item with
      | Some [k; v] =>
          if hashable k then dict_merge_seq (dict_set d k v) rest
          else Raise TypeError
      | Some _ => Raise ValueError
      | None => Raise TypeError
      end
  end.

(** [d.update(other)] for any object [other]. *)
Definition dict_update (d : dict) (other : pyval) : res dict :=
  match other with
  | PDict o => Ok (dict_merge d o)
  | PList l => dict_merge_seq d l
  | PStr s => dict_merge_seq d (map PStr (py_chars s))
  | PNone | PBool _ | PInt _ | PFloat _ => Raise TypeError
  end.

(** [field in container] for a string [field]. *)
Definition py_contains (container : pyval) (field : string) : res bool :=
  match container with
  | PDict d => Ok (existsb (fun k => key_eqb k (PStr field)) (dict_keys d))
  | PList l => Ok (existsb (fun v => key_eqb v (PStr field)) l)
  | PStr s => Ok (str_contains s field)
  | PNone | PBool _ | PInt _ | PFloat _ => Raise TypeError
  end.

End Py.
Import Py.

(* ================================================================== *)
(** * A reference reader for JSON texts *)
(* ================================================================== *)

Module Json.

(** [json.loads] belongs to Python's standard library and is a parameter of
    the development ([Env]).  [loads] below is an executable reader for the
    texts used in the examples: it follows the grammar of [json.decoder] on
    objects, arrays, strings with the one-letter escapes, integers and the
    literals [true], [false] and [null], with the decoder's whitespace
    ([space], [\t], [\n], [\r]).  It rejects what it does not cover (numbers
    with a fraction or an exponent, [NaN], [Infinity], [\u] escapes), so it
    stands for [json.loads] only on texts without them. *)

Definition dquote : ascii := ascii_of_nat 34.
Definition backslash : ascii := ascii_of_nat 92.

Definition is_ws (c : ascii) : bool :=
  let n := nat_of_ascii c in
  ((n =? 32) || (n =? 9) || (n =? 10) || (n =? 13))%nat.

Fixpoint skip_ws (s : string) : string :=
  match s with
  | String c r => if is_ws c then skip_ws r else s
  | EmptyString => s
  end.

Definition is_digit (c : ascii) : bool :=
  let n := nat_of_ascii c in (48 <=? n)%nat && (n <=? 57)%nat.

Definition digit_val (c : ascii) : Z := Z.of_nat (nat_of_ascii c) - 48.

(** The character an escape letter stands for. *)
Definition unescape (c : ascii) : option ascii :=
  if Ascii.eqb c dquote then Some dquote
  else if Ascii.eqb c backslash then Some backslash
  else if Ascii.eqb c "/" then Some "/"%char
  else if Ascii.eqb c "b" then Some (ascii_of_nat 8)
  else if Ascii.eqb c "f" then Some (ascii_of_nat 12)
  else if Ascii.eqb c "n" then Some (ascii_of_nat 10)
  else if Ascii.eqb c "r" then Some (ascii_of_nat 13)
  else if Ascii.eqb c "t" then Some (ascii_of_nat 9)
  else None.

(** The rest of a string literal after its opening quote.  A control
    character inside a literal is an error (the decoder is strict). *)
Fixpoint read_string (s : string) : option (string * string) :=
  match s with
  | EmptyString => None
  | String c r =>
      if Ascii.eqb c dquote then Some (EmptyString, r)
      else if Ascii.eqb c backslash then
        match r with
        | String e r' =>
            match unescape e, read_string r' with
            | Some x, Some (body, rest) => Some (String x body, rest)
            | _, _ => None
            end
        | EmptyString => None
        end
      else if (nat_of_ascii c <? 32)%nat then None
      else
        match read_string r with
        | Some (body, rest) => Some (String c body, rest)
        | None => None
        end
  end.

Fixpoint read_digits (acc : Z) (s : string) : Z * string :=
  match s with
  | String c r => if is_digit c then read_digits (10 * acc + digit_val c) r else (acc, s)
  | EmptyString => (acc, s)
  end.

(** After the integer part: a fraction or an exponent would make the number
    a float. *)
Definition starts_fraction (s : string) : bool :=
  match s with
  | String c _ => Ascii.eqb c "." || Ascii.eqb c "e" || Ascii.eqb c "E"
  | EmptyString => false
  end.

(** [0] or a digit sequence without a leading zero. *)
Definition read_natural (s : string) : option (Z * string) :=
  match s with
  | String c r =>
      if Ascii.eqb c "0" then
        if starts_fraction r then None else Some (0, r)
      else if is_digit c then
        let '(n, rest) := read_digits (digit_val c) r in
        if starts_fraction rest then None else Some (n, rest)
      else None
  | EmptyString => None
  end.

Definition read_literal (word : string) (v : pyval) (s : string)
  : option (pyval * string) :=
  if String.prefix word s
  then Some (v, String.substring (String.length word) (String.length s) s)
  else None.

(** One value at the head of [s] (no leading whitespace), and what follows
    it.  [read_elements] and [read_members] read the rest of an array and of
    an object after the opening bracket, one value per call. *)
Fixpoint read_value (fuel : nat) (s : string) : option (pyval * string) :=
  match fuel with
  | O => None
  | S n =>
      match s with
      | EmptyString => None
      | String c r =>
          if Ascii.eqb c "{" then
            match skip_ws r with
            | String "}" r' => Some (PDict [], r')
            | r' => read_members n [] r'
            end
          else if Ascii.eqb c "[" then
            match skip_ws r with
            | String "]" r' => Some (PList [], r')
            | r' => read_elements n [] r'
            end
          else if Ascii.eqb c dquote then
            match read_string r with
            | Some (body, rest) => Some (PStr body, rest)
            | None => None
            end
          else if Ascii.eqb c "-" then
            match read_natural r with
            | Some (z, rest) => Some (PInt (- z), rest)
            | None => None
            end
          else if is_digit c then
            match read_natural s with
            | Some (z, rest) => Some (PInt z, rest)
            | None => None
            end
          else if Ascii.eqb c "t" then read_literal "true" (PBool true) s
          else if Ascii.eqb c "f" then read_literal "false" (PBool false) s
          else if Ascii.eqb c "n" then read_literal "null" PNone s
          else None
      end
  end

with read_elements (fuel : nat) (acc : list pyval) (s : string)
  : option (pyval * string) :=
  match fuel with
  | O => None
  | S n =>
      match read_value n s with
      | Some (v, r) =>
          match skip_ws r with
          | String "," r' => read_elements n (acc ++ [v]) (skip_ws r')
          | String "]" r' => Some (PList (acc ++ [v]), r')
          | _ => None
          end
      | None => None
      end
  end

with read_members (fuel : nat) (acc : dict) (s : string)
  : option (pyval * string) :=
  match fuel with
  | O => None
  | S n =>
      match s with
      | String q r =>
          if Ascii.eqb q dquote then
            match read_string r with
            | Some (key, r1) =>
                match skip_ws r1 with
                | String ":" r2 =>
                    match read_value n (skip_ws r2) with
                    | Some (v, r3) =>
                        let acc' := dict_set acc (PStr key) v in
                        match skip_ws r3 with
                        | String "," r4 => read_members n acc' (skip_ws r4)
                        | String "}" r4 => Some (PDict acc', r4)
                        | _ => None
                        end
                    | None => None
                    end
                | _ => None
                end
            | None => None
            end
          else None
      | EmptyString => None
      end
  end.

(** [json.loads(s)]: one value between optional whitespace, nothing after
    it; [None] stands for [JSONDecodeError]. *)
Definition loads (s : string) : option pyval :=
  match read_value (2 * String.length s + 2) (skip_ws s) with
  | Some (v, rest) =>
      match skip_ws rest with
      | EmptyString => Some v
      | _ => None
      end
  | None => None
  end.

(** A name or a string between double quotes, for writing JSON texts. *)
Definition quoted (s : string) : string :=
  String dquote (s ++ String dquote EmptyString).

End Json.

(* ================================================================== *)
(** * The environment of the pipeline *)
(* ================================================================== *)

(** What lines 69-71 of [call_llama_moderation] deliver: either one of
    [requests.post], [raise_for_status], [response.json()] and the subscripts
    [["choices"][0]["message"]["content"]] raises, or [content] is bound to a
    value of the response. *)
Inductive exchange : Type :=
| Failed
| Content (content : pyval).

(** The collaborators of the moderation pipeline.  [requests_post n c] is the
    exchange of the [n]-th remote call of the run (counted from 0) when it is
    made for comment [c]: the endpoint need not answer the same comment the
    same way twice. *)
Record Env : Type := {
  contains_profanity : pyval -> bool;
  requests_post : nat -> pyval -> exchange;
  json_loads : string -> option pyval
}.

(** The effects of a run that the properties speak of: the comments sent to
    the remote endpoint, in order, and the number of pacing pauses
    ([time.sleep(0.5)]). *)
Record World : Type := {
  remote_calls : list pyval;
  sleeps : nat
}.

Definition M (A : Type) : Type := World -> res (A * World).

Definition ret {A} (a : A) : M A := fun w => Ok (a, w).

Definition bind {A B} (c : M A) (k : A -> M B) : M B :=
  fun w =>
    match c w with
    | Ok (a, w') => k a w'
    | Raise e => Raise e
    end.

Definition lift {A} (c : res A) : M A :=
  fun w => match c with Ok a => Ok (a, w) | Raise e => Raise e end.

Declare Scope py_scope.
Delimit Scope py_scope with py.
Notation "x <- c ;; k" := (bind c (fun x => k))
  (at level 61, c at next level, right associativity) : py_scope.
Notation "c ;;; k" := (bind c (fun _ => k))
  (at level 61, right associativity) : py_scope.

Definition time_sleep : M unit :=
  fun w => Ok (tt, {| remote_calls := remote_calls w; sleeps := S (sleeps w) |}).

(* ================================================================== *)
(** * [call_llama_moderation] *)
(* ================================================================== *)

Definition required_fields : list string :=
  ["is_offensive"; "offense_type"; "severity"; "explanation"].

(** [all(field in result for field in required_fields)]: the generator is
    consumed left to right and stops at the first [False]. *)
Fixpoint all_fields_in (result : pyval) (fields : list string) : res bool :=
  match fields with
  | [] => Ok true
  | field :: rest =>
      rbind (py_contains result field)
            (fun b => if b then all_fields_in result rest else Ok false)
  end.

(** [json.loads(content)]: [TypeError] on an object that is no text. *)
Definition py_json_loads (E : Env) (content : pyval) : res pyval :=
  match content with
  | PStr s =>
      match json_loads E s with
      | Some v => Ok v
      | None => Raise JSONDecodeError
      end
  | _ => Raise TypeError
  end.

(** Lines 74-78, the body of the inner [try]. *)
Definition direct_parse (E : Env) (content : pyval) : res pyval :=
  rbind (py_json_loads E content) (fun result =>
  rbind (all_fields_in result required_fields) (fun complete =>
  if complete then Ok result else Raise ValueError)).

(** Lines 80-84, the handler of [json.JSONDecodeError]; [content] is a
    string when the handler runs. *)
Definition brace_fallback (E : Env) (content : string) : res pyval :=
  let start := str_find "{" content in
  let end_ := str_rfind "}" content + 1 in
  if negb (start =? -1) && negb (end_ =? 0)
  then py_json_loads E (PStr (str_slice content start end_))
  else Raise ValueError.

(** Lines 73-84: the inner [try] with its handler. *)
Definition parse_content (E : Env) (content : pyval) : res pyval :=
  match direct_parse E content with
  | Raise JSONDecodeError =>
      match content with
      | PStr s => brace_fallback E s
      | _ => Raise JSONDecodeError
      end
  | r => r
  end.

(** Lines 68-91 on the outcome of the exchange: both outer handlers print
    to the error stream and return [None]. *)
Definition classify (E : Env) (x : exchange) : pyval :=
  match x with
  | Failed => PNone
  | Content content =>
      match parse_content E content with
      | Ok result => result
      | Raise _ => PNone
      end
  end.

(** [call_llama_moderation(comment)]: one remote call, recorded in the
    world; it never raises. *)
Definition call_llama_moderation (E : Env) (comment : pyval) : M pyval :=
  fun w =>
    Ok (classify E (requests_post E (List.length (remote_calls w)) comment),
        {| remote_calls := (remote_calls w ++ [comment])%list;
           sleeps := sleeps w |}).

(* ================================================================== *)
(** * [process_comments] *)
(* ================================================================== *)

(** The three cells of an input row that the loop reads. *)
Record Comment : Type := {
  comment_id : pyval;
  username : pyval;
  comment_text : pyval
}.

(** Lines 100-108. *)
Definition initial_record (row : Comment) : dict :=
  [ (PStr "comment_id", comment_id row);
    (PStr "username", username row);
    (PStr "comment_text", comment_text row);
    (PStr "is_offensive", PBool false);
    (PStr "offense_type", PNone);
    (PStr "severity", PInt 0);
    (PStr "explanation", PStr "Pending analysis") ].

(** The argument of [result.update] on line 111. *)
Definition local_verdict : pyval :=
  PDict [ (PStr "is_offensive", PBool true);
          (PStr "offense_type", PStr "profanity");
          (PStr "severity", PInt 5);
          (PStr "explanation", PStr "Detected by local profanity filter") ].

Local Open Scope py_scope.

(** Lines 99-123: the record of a row before the threshold is applied. *)
Definition moderate (E : Env) (row : Comment) : M dict :=
  let comment := comment_text row in
  let result := initial_record row in
  if contains_profanity E comment then
    lift (dict_update result local_verdict)
  else
    llama_result <- call_llama_moderation E comment ;;
    result <- (if py_truthy llama_result
               then lift (dict_update result llama_result)
               else ret (dict_set result (PStr "explanation")
                                  (PStr "Analysis failed"))) ;;
    time_sleep ;;;
    ret result.

(** Lines 125-127. *)
Definition apply_threshold (min_severity : Z) (result : dict) : res dict :=
  rbind (dict_getitem result "severity") (fun severity =>
  rbind (py_lt_int severity min_severity) (fun below =>
  Ok (if below then dict_set result (PStr "is_offensive") (PBool false)
      else result))).

(** One iteration of the loop, lines 99-129 without the [append]. *)
Definition process_row (E : Env) (min_severity : Z) (row : Comment) : M dict :=
  result <- moderate E row ;;
  lift (apply_threshold min_severity result).

(** The loop of lines 98-129, [results] being the list built so far. *)
Fixpoint process_rows (E : Env) (min_severity : Z) (rows : list Comment)
    (results : list dict) : M (list dict) :=
  match rows with
  | [] => ret results
  | row :: rest =>
      result <- process_row E min_severity row ;;
      process_rows E min_severity rest (results ++ [result])
  end.

(** A frame: its column labels and its rows.  A cell that a row does not
    define is [NaN].  Cells are kept as the Python values they were built
    from; of the column types that pandas infers, the report depends on one
    only (whether [severity] is an integer column), which [int64_cells]
    decides. *)
Record DataFrame : Type := {
  columns : list pyval;
  records : list dict
}.

Definition nan : pyval := PFloat S754_nan.

Definition cell (row : dict) (column : string) : pyval :=
  match dict_get row (PStr column) with
  | Some v => v
  | None => nan
  end.

Definition add_column (cols : list pyval) (k : pyval) : list pyval :=
  if existsb (fun c => key_eqb c k) cols then cols else cols ++ [k].

(** [pd.DataFrame(results)] for a list of dictionaries: one row per
    dictionary, the columns being the keys in order of first appearance. *)
Definition pd_DataFrame (results : list dict) : DataFrame :=
  {| columns := fold_left (fun cols r => fold_left add_column (dict_keys r) cols)
                          results [];
     records := results |}.

(** [process_comments(df, min_severity)], [df] being given by its rows. *)
Definition process_comments (E : Env) (df : list Comment) (min_severity : Z)
  : M DataFrame :=
  results <- process_rows E min_severity df [] ;;
  ret (pd_DataFrame results).

Definition fresh : World := {| remote_calls := []; sleeps := 0 |}.

(* ================================================================== *)
(** * [generate_report] *)
(* ================================================================== *)

Notation "'let*' x ':=' c 'in' k" := (rbind c (fun x => k))
  (at level 10, x name, c at level 100, k at level 200, only parsing).

Definition has_column (df : DataFrame) (column : string) : bool :=
  existsb (fun c => key_eqb c (PStr column)) (columns df).

(** [df[column]]: the cells of a column, [KeyError] when the frame has no
    such column. *)
Definition df_getitem (df : DataFrame) (column : string) : res (list pyval) :=
  if has_column df column
  then Ok (map (fun r => cell r column) (records df))
  else Raise (KeyError column).

(** [df[mask]] for a row mask. *)
Definition df_filter (mask : dict -> bool) (df : DataFrame) : DataFrame :=
  {| columns := columns df; records := filter mask (records df) |}.

(** [a / b] on two lengths. *)
Definition py_truediv (a b : nat) : res Q :=
  match b with
  | O => Raise ZeroDivisionError
  | S _ => Ok (Z.of_nat a # Pos.of_nat b)
  end.

(** The rows of [rows] at the given positions, in that order. *)
Definition take {A} (rows : list A) (positions : list nat) : list A :=
  flat_map (fun i => match nth_error rows i with
                     | Some r => [r]
                     | None => []
                     end) positions.

Definition is_null (v : pyval) : bool :=
  match v with
  | PNone | PFloat S754_nan => true
  | _ => false
  end.

Fixpoint tally (counts : list (pyval * nat)) (v : pyval) : list (pyval * nat) :=
  match counts with
  | [] => [(v, 1%nat)]
  | (k, n) :: rest =>
      if key_eqb k v then (k, S n) :: rest else (k, n) :: tally rest v
  end.

(** [label.title()] succeeds on a [str] only.  The report keeps the label;
    its title-cased spelling is a matter of printing. *)
Definition title (label : pyval) : res string :=
  match label with
  | PStr s => Ok s
  | _ => Raise AttributeError
  end.

Fixpoint map_res {A B} (f : A -> res B) (l : list A) : res (list B) :=
  match l with
  | [] => Ok []
  | a :: rest =>
      let* b := f a in
      let* bs := map_res f rest in
      Ok (b :: bs)
  end.

Definition int64 (z : Z) : bool := (- 2 ^ 63 <=? z) && (z <? 2 ^ 63).

(** The cells of an [int64] column: every cell an integer in range. *)
Fixpoint int64_cells (cells : list pyval) : option (list Z) :=
  match cells with
  | [] => Some []
  | PInt z :: rest =>
      if int64 z
      then match int64_cells rest with
           | Some zs => Some (z :: zs)
           | None => None
           end
      else None
  | _ :: _ => None
  end.

(** The three entries of [describe()] that the report prints. *)
Record Stats : Type := {
  mean : Q;
  maximum : Z;
  minimum : Z
}.

Definition describe (xs : list Z) : Stats :=
  {| mean := fold_right Z.add 0 xs # Pos.of_nat (List.length xs);
     maximum := fold_right Z.max (hd 0 xs) xs;
     minimum := fold_right Z.min (hd 0 xs) xs |}.

(** One entry of the "Top 5" section, in the order it is printed. *)
Record Offender : Type := {
  o_severity : Z;
  o_user : pyval;
  o_comment : pyval;
  o_type : string;
  o_analysis : pyval
}.

Inductive Details : Type :=
| NoOffensive
| Breakdown (offense_counts : list (string * nat)) (severity_stats : Stats)
            (top_offenders : list Offender)
| NotInt64
    (** the [severity] column is not an [int64] column: statistics and
        ranking are then floating-point or object computations of pandas,
        which this model leaves open *).

Record Report : Type := {
  total : nat;
  offensive_found : nat;
  ratio : Q;
  details : Details
}.

Definition row_getitem (df : DataFrame) (row : dict) (column : string)
  : res pyval :=
  if has_column df column then Ok (cell row column)
  else Raise (KeyError column).

Section Report.

(** [sort_desc keys] stands for [sort_values(..., ascending=False)] on an
    integer column with cells [keys]: the positions of the rows in the order
    in which the sorted frame lists them. *)
Variable sort_desc : list Z -> list nat.

(** [series.value_counts()]: the distinct non-null values with their
    numbers of occurrences, most frequent first. *)
Definition value_counts (cells : list pyval) : res (list (pyval * nat)) :=
  if forallb hashable cells then
    let counts := fold_left tally (filter (fun v => negb (is_null v)) cells) [] in
    Ok (take counts (sort_desc (map (fun kv => Z.of_nat (snd kv)) counts)))
  else Raise TypeError.

(** The body of the loop of lines 156-161 for one row. *)
Definition offender (df : DataFrame) (row : dict) (severity : Z)
  : res Offender :=
  let* user := row_getitem df row "username" in
  let* comment := row_getitem df row "comment_text" in
  let* kind := row_getitem df row "offense_type" in
  let* label := title kind in
  let* analysis := row_getitem df row "explanation" in
  Ok {| o_severity := severity; o_user := user; o_comment := comment;
        o_type := label; o_analysis := analysis |}.

(** Lines 155-161 on an [int64] severity column. *)
Definition top_five (offensive : DataFrame) (severities : list Z)
  : res (list Offender) :=
  let ranked := take (combine (records offensive) severities)
                     (sort_desc severities) in
  map_res (fun rs => offender offensive (fst rs) (snd rs)) (firstn 5 ranked).

(** Lines 143-161. *)
Definition breakdown (analyzed_df offensive : DataFrame) : res Details :=
  let* kinds := df_getitem offensive "offense_type" in
  let* offense_counts := value_counts kinds in
  let* labelled := map_res (fun oc => let* label := title (fst oc) in
                                      Ok (label, snd oc)) offense_counts in
  let* all_severities := df_getitem analyzed_df "severity" in
  let* severities := df_getitem offensive "severity" in
  match int64_cells all_severities, int64_cells severities with
  | Some _, Some xs =>
      let* top := top_five offensive xs in
      Ok (Breakdown labelled (describe xs) top)
  | _, _ => Ok NotInt64
  end.

(** [generate_report(analyzed_df)]. *)
Definition generate_report (analyzed_df : DataFrame) : res Report :=
  let* flags := df_getitem analyzed_df "is_offensive" in
  let offensive :=
    df_filter (fun r => py_eq_True (cell r "is_offensive")) analyzed_df in
  let found := List.length (records offensive) in
  let all := List.length (records analyzed_df) in
  let* share := py_truediv found all in
  let* detail :=
    match records offensive with
    | [] => Ok NoOffensive
    | _ :: _ => breakdown analyzed_df offensive
    end in
  Ok {| total := all; offensive_found := found; ratio := share;
        details := detail |}.

End Report.

(** What the documentation of [sort_values] promises of the default
    [kind="quicksort"]: the output lists every row once, by descending key.
    It says nothing of the order of rows with equal keys. *)
Definition sorts_descending (sort_desc : list Z -> list nat) : Prop :=
  forall keys,
    Permutation (sort_desc keys) (seq 0 (List.length keys)) /\
    Sorted Z.ge (map (fun i => nth i keys 0) (sort_desc keys)).

(* ================================================================== *)
(** * [validate_input_file] and [main] *)
(* ================================================================== *)

(** Lines 39-47 of [validate_input_file], on the frame read from the file:
    both checks raise [ValueError]. *)
Definition validate_input_file (df : DataFrame) : res DataFrame :=
  let required_cols := ["comment_id"; "username"; "comment_text"] in
  let missing_cols := filter (fun col => negb (has_column df col)) required_cols in
  match missing_cols with
  | _ :: _ => Raise ValueError
  | [] =>
      match columns df, records df with
      | [], _ | _, [] => Raise ValueError
      | _, _ => Ok df
      end
  end.

(** The cells that [process_comments] reads from each row of [df.iterrows()]. *)
Definition iterrows (df : DataFrame) : list Comment :=
  map (fun r => {| comment_id := cell r "comment_id";
                   username := cell r "username";
                   comment_text := cell r "comment_text" |}) (records df).

(** Lines 238, 243 and 257 of [main]: validation, moderation, report.  The
    exports and the charts between them do not change [analyzed_df]. *)
Definition main (E : Env) (sort_desc : list Z -> list nat)
    (loaded : DataFrame) (min_severity : Z) : M Report :=
  df <- lift (validate_input_file loaded) ;;
  analyzed_df <- process_comments E (iterrows df) min_severity ;;
  lift (generate_report sort_desc analyzed_df).

(* ================================================================== *)
(** * Notions used by the statements *)
(* ================================================================== *)

(** A field of a record. *)
Definition field (r : dict) (name : string) : option pyval :=
  dict_get r (PStr name).

Definition is_number (v : pyval) : bool :=
  match as_num v with Some _ => true | None => false end.

(** No entry of [d] is stored under the key [name]. *)
Definition lacks (d : dict) (name : string) : bool :=
  forallb (fun kv => negb (key_eqb (fst kv) (PStr name))) d.

(** Every entry of [d] stored under ["severity"] is a number. *)
Definition numeric_severity (d : dict) : bool :=
  forallb (fun kv => negb (key_eqb (fst kv) (PStr "severity"))
                     || is_number (snd kv)) d.

(** An object that names none of the three fields of the comment. *)
Definition keeps_comment_fields (d : dict) : bool :=
  lacks d "comment_id" && lacks d "username" && lacks d "comment_text".

(** A classifier outcome that the policy absorbs: a failure (or any other
    false value), or an object whose severity is a number. *)
Definition absorbable (llama_result : pyval) : bool :=
  negb (py_truthy llama_result) ||
  match llama_result with
  | PDict d => numeric_severity d
  | _ => false
  end.

(** An absorbable outcome that leaves [comment_id] alone. *)
Definition keeps_id (llama_result : pyval) : bool :=
  negb (py_truthy llama_result) ||
  match llama_result with
  | PDict d => numeric_severity d && lacks d "comment_id"
  | _ => false
  end.

(** The outcome of the remote call that [process_row] makes in world [w]. *)
Definition outcome (E : Env) (row : Comment) (w : World) : pyval :=
  classify E (requests_post E (List.length (remote_calls w)) (comment_text row)).

(** The world after a comment went through the remote path. *)
Definition after_remote (row : Comment) (w : World) : World :=
  {| remote_calls := (remote_calls w ++ [comment_text row])%list;
     sleeps := S (sleeps w) |}.

(** The record of a comment that the lexical filter flagged, before the
    threshold is applied. *)
Definition flagged_record (row : Comment) : dict :=
  [ (PStr "comment_id", comment_id row);
    (PStr "username", username row);
    (PStr "comment_text", comment_text row);
    (PStr "is_offensive", PBool true);
    (PStr "offense_type", PStr "profanity");
    (PStr "severity", PInt 5);
    (PStr "explanation", PStr "Detected by local profanity filter") ].

(** The record of a comment whose classification failed. *)
Definition failed_record (row : Comment) : dict :=
  dict_set (initial_record row) (PStr "explanation") (PStr "Analysis failed").

(** A record as section 3 of the specification types it, as far as the
    report reads it: a boolean flag, an integer severity, and a string
    offense type on an offensive record. *)
Definition typed_record (r : dict) : bool :=
  match field r "is_offensive", field r "severity" with
  | Some (PBool b), Some (PInt s) =>
      int64 s &&
      (negb b || match field r "offense_type" with
                 | Some (PStr _) => true
                 | _ => false
                 end)
  | _, _ => false
  end.

Definition report_columns : list string :=
  ["is_offensive"; "offense_type"; "severity"; "username"; "comment_text";
   "explanation"].

Definition typed_frame (df : DataFrame) : bool :=
  forallb (has_column df) report_columns && forallb typed_record (records df).

(** The rows that the report counts as offensive. *)
Definition offensive_row (r : dict) : bool :=
  py_eq_True (cell r "is_offensive").

(** A computation that does not end in a division by zero. *)
Definition no_zero_division {A} (c : res A) : Prop :=
  c <> Raise ZeroDivisionError.

(** The ranking in the specification's words: a stable sort by severity,
    descending, followed by taking the first five.  [insert_desc] puts a row
    in front of the first row that does not outrank it, so that of two rows
    with equal severity the earlier stays first. *)
Fixpoint insert_desc {A} (x : A * Z) (sorted : list (A * Z)) : list (A * Z) :=
  match sorted with
  | [] => [x]
  | y :: rest =>
      if snd y <=? snd x then x :: sorted else y :: insert_desc x rest
  end.

Definition stable_sort_desc {A} (rows : list (A * Z)) : list (A * Z) :=
  fold_right insert_desc [] rows.

Definition stable_top5 {A} (rows : list (A * Z)) : list (A * Z) :=
  firstn 5 (stable_sort_desc rows).

(** The rows that the specification's ranking selects from a frame. *)
Definition severity_of (r : dict) : Z :=
  match cell r "severity" with
  | PInt s => s
  | _ => 0
  end.

Definition stable_top5_rows (df : DataFrame) : list dict :=
  map fst (stable_top5 (map (fun r => (r, severity_of r))
                            (filter offensive_row (records df)))).

(** A sorting routine within the promise of [sorts_descending] that lists
    rows of equal key last-to-first: insertion sort on (key, position)
    pairs, from the last row to the first, each pair going behind the pairs
    of equal key that are already placed. *)
Fixpoint insert_behind_ties (x : Z * nat) (sorted : list (Z * nat))
  : list (Z * nat) :=
  match sorted with
  | [] => [x]
  | y :: rest =>
      if fst y <? fst x then x :: sorted else y :: insert_behind_ties x rest
  end.

Definition sort_ties_reversed (keys : list Z) : list nat :=
  map snd (fold_right insert_behind_ties []
                      (combine keys (seq 0 (List.length keys)))).

(** ** Environments for the examples *)

(** A stand-in for the word-list matcher: it flags the texts that contain
    the word "darn". *)
Definition flags_darn (comment : pyval) : bool :=
  match comment with
  | PStr s => str_contains s "darn"
  | _ => false
  end.

(** An endpoint that answers every call with the same exchange, read with
    the reference reader. *)
Definition answering (x : exchange) : Env :=
  {| contains_profanity := flags_darn;
     requests_post := fun _ _ => x;
     json_loads := Json.loads |}.

(** The text of a JSON object with the given members. *)
Definition member (name value : string) : string :=
  Json.quoted name ++ ": " ++ value.

Definition object (members : list string) : string :=
  "{" ++ String.concat ", " members ++ "}".

(** The text of a verdict with the four fields, each given as JSON text. *)
Definition verdict (is_offensive offense_type severity explanation : string)
  : string :=
  object [ member "is_offensive" is_offensive;
           member "offense_type" offense_type;
           member "severity" severity;
           member "explanation" explanation ].

Definition comment (id : Z) (user text : string) : Comment :=
  {| comment_id := PInt id; username := PStr user; comment_text := PStr text |}.

(** Twenty comments by twenty users, [userA] to [userT], each of which the
    stand-in matcher flags. *)
Definition user_name (i : nat) : string :=
  "user" ++ String (ascii_of_nat (65 + i)) EmptyString.

Definition twenty_flagged : list Comment :=
  map (fun i => comment (Z.of_nat i) (user_name i) "darn") (seq 0 20).

(** The end-to-end scenario of section 8 of the specification: the first
    comment holds a filtered word, the endpoint rates the second as hate
    speech of severity 8 and the third as toxicity of severity 2. *)
Definition scenario_env : Env :=
  {| contains_profanity := flags_darn;
     requests_post := fun _ c =>
       match c with
       | PStr "second" =>
           Content (PStr (verdict "true" (Json.quoted "hate_speech") "8"
                                  (Json.quoted "slur")))
       | _ =>
           Content (PStr (verdict "true" (Json.quoted "toxicity") "2"
                                  (Json.quoted "rude")))
       end;
     json_loads := Json.loads |}.

Definition scenario : list Comment :=
  [comment 1 "ann" "darn it"; comment 2 "bob" "second"; comment 3 "cyd" "third"].

(* ================================================================== *)
(** * The command-line program *)
(* ================================================================== *)

(** [s.endswith(suffix)]. *)
Definition str_endswith (s suffix : string) : bool :=
  let n := String.length s in
  let k := String.length suffix in
  (k <=? n)%nat && (String.substring (n - k) k s =? suffix)%string.

(** [x in options] for a list of strings. *)
Definition among (x : string) (options : list string) : bool :=
  existsb (String.eqb x) options.

Module Cli.

(** What the program asks of the operating system and of pandas' readers:
    [os.path.exists], [pd.read_csv] and [pd.read_json] ([None] when the
    reader raises), and [os.path.splitext]. *)
Record Os : Type := {
  path_exists : string -> bool;
  read_csv : string -> option DataFrame;
  read_json : string -> option DataFrame;
  splitext : string -> string * string
}.

(** The namespace that [parse_arguments] returns. *)
Record Args : Type := {
  input_file : string;
  output_format : string;
  chart_type : string;
  min_severity : Z
}.

(** What [main] catches and reports before [sys.exit(1)]: the two
    exceptions of [validate_input_file] with their messages, an exception of
    a reader, or one raised by the moderation loop, the report or the
    charts. *)
Inductive failure : Type :=
| FileNotFound (message : string)
| Invalid (message : string)
| ReaderRaised
| Raised (e : exn).

(** The text of a list of names inside an f-string: [['a', 'b']]. *)
Definition repr_list (names : list string) : string :=
  "[" ++ String.concat ", " (map (fun c => "'" ++ c ++ "'") names) ++ "]".

Definition required_cols : list string :=
  ["comment_id"; "username"; "comment_text"].

(** Lines 29-37 of [validate_input_file]: the frame read from the path. *)
Definition read_input (O : Os) (file_path : string) : failure + DataFrame :=
  if negb (path_exists O file_path) then
    inl (FileNotFound ("Input file not found: " ++ file_path))
  else if str_endswith file_path ".csv" then
    match read_csv O file_path with
    | Some df => inr df
    | None => inl ReaderRaised
    end
  else if str_endswith file_path ".json" then
    match read_json O file_path with
    | Some df => inr df
    | None => inl ReaderRaised
    end
  else inl (Invalid "Unsupported file format. Please use CSV or JSON").

(** [df.empty]: no row or no column. *)
Definition df_empty (df : DataFrame) : bool :=
  match columns df, records df with
  | [], _ | _, [] => true
  | _, _ => false
  end.

(** [validate_input_file(file_path)], lines 27-47. *)
Definition validate_input_file (O : Os) (file_path : string)
  : failure + DataFrame :=
  match read_input O file_path with
  | inl f => inl f
  | inr df =>
      let missing_cols :=
        filter (fun col => negb (has_column df col)) required_cols in
      match missing_cols with
      | _ :: _ =>
          inl (Invalid ("Missing required columns: " ++ repr_list missing_cols))
      | [] =>
          if df_empty df then inl (Invalid "Input file is empty") else inr df
      end
  end.

(** The files that a run writes: the two exports with the frame they hold,
    and the figures with the counts they draw.  Writing and drawing are
    taken to return, as printing is. *)
Inductive chart : Type := Pie | Bar.

Inductive Output : Type :=
| CsvFile (name : string) (df : DataFrame)
| JsonFile (name : string) (df : DataFrame)
| Figure (name : string) (kind : chart) (offense_counts : list (pyval * nat)).

(** [generate_visualizations(analyzed_df, chart_type)]: the figures saved. *)
Definition generate_visualizations (sort_desc : list Z -> list nat)
    (analyzed_df : DataFrame) (chart_type : string) : res (list Output) :=
  let* flags := df_getitem analyzed_df "is_offensive" in
  let offensive :=
    df_filter (fun r => py_eq_True (cell r "is_offensive")) analyzed_df in
  match records offensive with
  | [] => Ok []
  | _ :: _ =>
      let* kinds := df_getitem offensive "offense_type" in
      let* offense_counts := value_counts sort_desc kinds in
      Ok ((if among chart_type ["pie"; "both"]
           then [Figure "offense_types_pie.png" Pie offense_counts] else [])
          ++
          (if among chart_type ["bar"; "both"]
           then [Figure "offense_types_bar.png" Bar offense_counts] else []))%list
  end.

(** Lines 245-255 of [main]: the exports. *)
Definition exports (output_format base_name : string) (analyzed_df : DataFrame)
  : list Output :=
  ((if among output_format ["csv"; "both"]
    then [CsvFile (base_name ++ "_analyzed.csv") analyzed_df] else [])
   ++
   (if among output_format ["json"; "both"]
    then [JsonFile (base_name ++ "_analyzed.json") analyzed_df] else []))%list.

(** How a run ends: [main] returns (exit status 0) with the report it
    printed, or it exits with status 1 on a failure.  Either way the files
    written so far stay.  The world of a run that exits is known unless the
    moderation loop raised. *)
Inductive Outcome : Type :=
| Returned (w : World) (files : list Output) (report : Report)
| Exited (f : failure) (w : option World) (files : list Output).

(** [main()], lines 234-264, for the arguments [args]. *)
Definition main (E : Env) (O : Os) (sort_desc : list Z -> list nat)
    (args : Args) (w : World) : Outcome :=
  match validate_input_file O (input_file args) with
  | inl f => Exited f (Some w) []
  | inr df =>
      match process_comments E (iterrows df) (min_severity args) w with
      | Raise e => Exited (Raised e) None []
      | Ok (analyzed_df, w') =>
          let base_name := fst (splitext O (input_file args)) in
          let files := exports (output_format args) base_name analyzed_df in
          match generate_report sort_desc analyzed_df with
          | Raise e => Exited (Raised e) (Some w') files
          | Ok report =>
              if negb (chart_type args =? "none")%string then
                match generate_visualizations sort_desc analyzed_df
                                              (chart_type args) with
                | Raise e => Exited (Raised e) (Some w') files
                | Ok figures => Returned w' (files ++ figures)%list report
                end
              else Returned w' files report
          end
      end
  end.

End Cli.

(** A reference [os.path.splitext] for POSIX paths, after [genericpath]:
    the extension starts at the last dot of the last component, unless only
    dots precede it there. *)
Fixpoint only_dots (s : string) : bool :=
  match s with
  | EmptyString => true
  | String c r => Ascii.eqb c "." && only_dots r
  end.

Definition posix_splitext (p : string) : string * string :=
  let sep_index := str_rfind "/" p in
  let dot_index := str_rfind "." p in
  if (sep_index <? dot_index)
     && negb (only_dots (str_slice p (sep_index + 1) dot_index))
  then (str_slice p 0 dot_index,
        str_slice p dot_index (Z.of_nat (String.length p)))
  else (p, EmptyString).

(** A disk holding the given files, each with the frame that the reader for
    its extension returns. *)
Fixpoint lookup_file (files : list (string * DataFrame)) (path : string)
  : option DataFrame :=
  match files with
  | [] => None
  | (name, df) :: rest =>
      if (name =? path)%string then Some df else lookup_file rest path
  end.

Definition disk (files : list (string * DataFrame)) : Cli.Os :=
  {| Cli.path_exists := fun p => match lookup_file files p with
                                 | Some _ => true
                                 | None => false
                                 end;
     Cli.read_csv := lookup_file files;
     Cli.read_json := lookup_file files;
     Cli.splitext := posix_splitext |}.

(** The frame that a reader returns for a file with the three columns. *)
Definition input_frame (rows : list Comment) : DataFrame :=
  {| columns := [PStr "comment_id"; PStr "username"; PStr "comment_text"];
     records := map (fun c => [ (PStr "comment_id", comment_id c);
                                (PStr "username", username c);
                                (PStr "comment_text", comment_text c) ]) rows |}.

(** A computation that raises nothing but the allowed exceptions. *)
Definition raises_only {A} (allowed : exn -> bool) (c : res A) : Prop :=
  forall e, c = Raise e -> allowed e = true.

Definition type_or_value (e : exn) : bool :=
  match e with
  | TypeError | ValueError => true
  | _ => false
  end.

Definition type_or_attribute (e : exn) : bool :=
  match e with
  | TypeError | AttributeError => true
  | _ => false
  end.

(** The seven fields of a moderation record, in the order of line 100. *)
Definition record_fields : list string :=
  ["comment_id"; "username"; "comment_text"; "is_offensive"; "offense_type";
   "severity"; "explanation"].

(** A record that defines every field of the list. *)
Definition defines (r : dict) (names : list string) : bool :=
  forallb (fun name => negb (lacks r name)) names.

(** A JSON value that is no container. *)
Definition is_scalar (v : pyval) : bool :=
  match v with
  | PNone | PBool _ | PInt _ | PFloat _ => true
  | _ => false
  end.

(** The comments of a batch that the lexical filter does not flag. *)
Definition unflagged (E : Env) (df : list Comment) : list Comment :=
  filter (fun row => negb (contains_profanity E (comment_text row))) df.

(** The number of cells that a table of counts accounts for. *)
Definition sum_counts {A} (counts : list (A * nat)) : nat :=
  fold_right Nat.add 0%nat (map snd counts).

(** The offensive rows whose [offense_type] is not null: the rows that
    [value_counts()] counts on line 144. *)
Definition typed_offensive (df : DataFrame) : list dict :=
  filter (fun r => negb (is_null (cell r "offense_type")))
         (filter offensive_row (records df)).

(* ================================================================== *)
(** * Facts about dictionaries *)
(* ================================================================== *)

Section DictFacts.

Lemma key_eqb_str_r k s : key_eqb k (PStr s) = true -> k = PStr s.
Proof.
  destruct k as [| | |f| | |]; simpl; try discriminate.
  - destruct f; discriminate.
  - intros H; apply String.eqb_eq in H; now subst.
Qed.

Lemma key_eqb_str_l k s : key_eqb (PStr s) k = true -> k = PStr s.
Proof.
  destruct k; simpl; try discriminate.
  intros H; apply String.eqb_eq in H; now subst.
Qed.

Lemma field_set_same d s v : field (dict_set d (PStr s) v) s = Some v.
Proof.
  unfold field.
  induction d as [|[k' v'] d IH]; simpl.
  - now rewrite String.eqb_refl.
  - destruct (key_eqb k' (PStr s)) eqn:K; simpl; rewrite K; auto.
Qed.

Lemma field_set_other d k v s :
  key_eqb k (PStr s) = false -> field (dict_set d k v) s = field d s.
Proof.
  unfold field. intros N.
  induction d as [|[k' v'] d IH]; simpl.
  - now rewrite N.
  - destruct (key_eqb k' k) eqn:K; simpl.
    + destruct (key_eqb k' (PStr s)) eqn:K'; auto.
      apply key_eqb_str_r in K'; subst k'.
      apply key_eqb_str_l in K; subst k.
      simpl in N. now rewrite String.eqb_refl in N.
    + destruct (key_eqb k' (PStr s)); auto.
Qed.

Lemma field_set_other_str d s' v s :
  s' <> s -> field (dict_set d (PStr s') v) s = field d s.
Proof.
  intros N. apply field_set_other. simpl. now apply String.eqb_neq.
Qed.

(** A key that [other] does not name keeps its value under [update]. *)
Lemma field_merge_lacks other : forall d s,
  lacks other s = true -> field (dict_merge d other) s = field d s.
Proof.
  unfold dict_merge.
  induction other as [|[k v] other IH]; intros d s L; simpl in *; auto.
  apply andb_prop in L as [N L].
  rewrite IH by exact L.
  apply field_set_other. now apply negb_true_iff.
Qed.

(** A numeric severity stays numeric under an [update] whose severity
    entries are numbers. *)
Lemma severity_merge other : forall d v,
  numeric_severity other = true ->
  field d "severity" = Some v -> is_number v = true ->
  exists v', field (dict_merge d other) "severity" = Some v' /\
             is_number v' = true.
Proof.
  unfold dict_merge.
  induction other as [|[k x] other IH]; intros d v N F I; simpl in *.
  - eauto.
  - apply andb_prop in N as [Nk N].
    destruct (key_eqb k (PStr "severity")) eqn:K; simpl in Nk.
    + apply key_eqb_str_r in K; subst k.
      apply (IH _ x N); [apply field_set_same | exact Nk].
    + apply (IH _ v N); [|exact I].
      rewrite field_set_other by exact K. exact F.
Qed.

End DictFacts.

(* ================================================================== *)
(** * Facts about the moderation policy *)
(* ================================================================== *)

Section PolicyFacts.

Variable E : Env.

Lemma moderate_local row w :
  contains_profanity E (comment_text row) = true ->
  moderate E row w = Ok (flagged_record row, w).
Proof.
  intros H. unfold moderate. rewrite H. reflexivity.
Qed.

Lemma moderate_remote row w :
  contains_profanity E (comment_text row) = false ->
  moderate E row w =
  match (if py_truthy (outcome E row w)
         then dict_update (initial_record row) (outcome E row w)
         else Ok (failed_record row)) with
  | Ok r => Ok (r, after_remote row w)
  | Raise e => Raise e
  end.
Proof.
  intros H. unfold moderate. rewrite H.
  unfold bind, call_llama_moderation, outcome, lift, ret, time_sleep.
  destruct (py_truthy _); [|reflexivity].
  destruct (dict_update _ _); reflexivity.
Qed.

Lemma process_row_unfold ms row w :
  process_row E ms row w =
  match moderate E row w with
  | Ok (r, w') =>
      match apply_threshold ms r with
      | Ok r' => Ok (r', w')
      | Raise e => Raise e
      end
  | Raise e => Raise e
  end.
Proof.
  unfold process_row, bind, lift.
  destruct (moderate E row w) as [[r w']|]; reflexivity.
Qed.

(** The threshold gate on a record with a numeric severity. *)
Lemma apply_threshold_number ms r v :
  field r "severity" = Some v -> is_number v = true ->
  exists below,
    py_lt_int v ms = Ok below /\
    apply_threshold ms r =
    Ok (if below then dict_set r (PStr "is_offensive") (PBool false) else r).
Proof.
  unfold field, is_number, apply_threshold, dict_getitem, py_lt_int.
  intros -> I. simpl.
  destruct (as_num v); [|discriminate]. simpl. eauto.
Qed.

(** Whatever the gate returns differs from its argument in [is_offensive]
    at most. *)
Lemma apply_threshold_frame ms r r' s :
  apply_threshold ms r = Ok r' -> s <> "is_offensive" ->
  field r' s = field r s.
Proof.
  unfold apply_threshold, dict_getitem.
  destruct (dict_get r (PStr "severity")); simpl; [|discriminate].
  destruct (py_lt_int p ms) as [[|]|]; simpl; intros [= <-] N; auto.
  apply field_set_other_str. congruence.
Qed.

(** The gate returns exactly when the severity is a number, whatever the
    threshold. *)
Lemma apply_threshold_returns ms ms' r :
  returns (apply_threshold ms r) = returns (apply_threshold ms' r).
Proof.
  unfold apply_threshold, dict_getitem, py_lt_int.
  destruct (dict_get r (PStr "severity")); simpl; [|reflexivity].
  destruct (as_num p); reflexivity.
Qed.

End PolicyFacts.

Section Numbers.

Lemma py_lt_int_int a m : py_lt_int (PInt a) m = Ok (a <? m).
Proof.
  unfold py_lt_int; simpl. unfold align; simpl.
  now rewrite !Z.mul_1_r.
Qed.

(** Comparison with a threshold is monotone in the threshold. *)
Lemma num_ltb_mono n m1 m2 :
  m1 <= m2 -> num_ltb n (Fin m1 0) = true -> num_ltb n (Fin m2 0) = true.
Proof.
  intros L. destruct n as [m e|[|]|]; simpl; auto.
  unfold align.
  set (p := 2 ^ (0 - Z.min e 0)).
  assert (0 < p) by (apply Z.pow_pos_nonneg; lia).
  rewrite !Z.ltb_lt. nia.
Qed.

End Numbers.

(* ================================================================== *)
(** * The local-filter short circuit *)
(* ================================================================== *)

(** C7.  A comment that the lexical filter flags gets, before the threshold
    is applied, the record with [is_offensive = True],
    [offense_type = "profanity"], [severity = 5] and the explanation
    "Detected by local profanity filter"; the threshold changes the flag
    only; and the world is the same afterwards: no remote call was made and
    no pause taken. *)
Theorem local_filter_short_circuit (E : Env) (min_severity : Z)
    (row : Comment) (w : World) :
  contains_profanity E (comment_text row) = true ->
  exists pre final,
    moderate E row w = Ok (pre, w) /\
    field pre "is_offensive" = Some (PBool true) /\
    field pre "offense_type" = Some (PStr "profanity") /\
    field pre "severity" = Some (PInt 5) /\
    field pre "explanation" = Some (PStr "Detected by local profanity filter") /\
    process_row E min_severity row w = Ok (final, w) /\
    field final "is_offensive" = Some (PBool (min_severity <=? 5)) /\
    field final "offense_type" = Some (PStr "profanity") /\
    field final "severity" = Some (PInt 5) /\
    field final "explanation" = Some (PStr "Detected by local profanity filter").
Proof.
  intros H.
  exists (flagged_record row).
  exists (if 5 <? min_severity
          then dict_set (flagged_record row) (PStr "is_offensive") (PBool false)
          else flagged_record row).
  rewrite process_row_unfold, (moderate_local E row w H).
  split; [reflexivity|].
  do 4 (split; [reflexivity|]).
  unfold apply_threshold, dict_getitem; simpl dict_get; simpl rbind.
  rewrite Z.mul_1_r, Z.leb_antisym.
  destruct (5 <? min_severity); repeat split; reflexivity.
Qed.

Lemma local_filter_short_circuit_witness :
  contains_profanity (answering Failed) (PStr "darn it") = true /\
  exists pre final,
    moderate (answering Failed) (comment 7 "bob" "darn it") fresh = Ok (pre, fresh) /\
    field pre "severity" = Some (PInt 5) /\
    process_row (answering Failed) 6 (comment 7 "bob" "darn it") fresh
      = Ok (final, fresh) /\
    field final "is_offensive" = Some (PBool false) /\
    field final "severity" = Some (PInt 5).
Proof.
  split; [reflexivity|].
  destruct (local_filter_short_circuit (answering Failed) 6
              (comment 7 "bob" "darn it") fresh eq_refl)
    as (pre & final & M & _ & _ & S & _ & P & F & _ & S' & _).
  exists pre, final. repeat split; assumption.
Defined.

(* ================================================================== *)
(** * The threshold gate *)
(* ================================================================== *)

(** C8.  For a fixed comment and a fixed outcome of its classification, let
    the policy return [r2] under the threshold [m2].  Under any lower
    threshold [m1] it returns as well, with the same severity and
    explanation, which are those of the record before the gate, and with the
    same flag whenever the flag of [r2] is true: raising the threshold never
    makes a record offensive.  And a severity below [m2] leaves the flag of
    [r2] false. *)
Theorem threshold_monotone (E : Env) (row : Comment) (w w2 : World)
    (m1 m2 : Z) (r2 : dict) :
  m1 <= m2 ->
  process_row E m2 row w = Ok (r2, w2) ->
  exists pre r1,
    moderate E row w = Ok (pre, w2) /\
    process_row E m1 row w = Ok (r1, w2) /\
    field r1 "severity" = field pre "severity" /\
    field r2 "severity" = field pre "severity" /\
    field r1 "explanation" = field pre "explanation" /\
    field r2 "explanation" = field pre "explanation" /\
    (forall flag, field r2 "is_offensive" = Some flag ->
                  py_truthy flag = true ->
                  field r1 "is_offensive" = Some flag) /\
    (forall s, field r2 "severity" = Some (PInt s) -> s < m2 ->
               field r2 "is_offensive" = Some (PBool false)) /\
    (forall v, field r2 "severity" = Some v -> py_lt_int v m2 = Ok true ->
               field r2 "is_offensive" = Some (PBool false)).
Proof.
  intros L P2.
  rewrite process_row_unfold in P2.
  destruct (moderate E row w) as [[pre w0]|] eqn:Mod; [|discriminate].
  destruct (apply_threshold m2 pre) as [r2'|] eqn:G2; [|discriminate].
  injection P2 as -> ->.
  assert (G1 : exists r1, apply_threshold m1 pre = Ok r1).
  { pose proof (apply_threshold_returns m1 m2 pre) as R.
    rewrite G2 in R. destruct (apply_threshold m1 pre); [eauto|discriminate]. }
  destruct G1 as [r1 G1].
  assert (general : forall v, field r2 "severity" = Some v ->
                              py_lt_int v m2 = Ok true ->
                              field r2 "is_offensive" = Some (PBool false)).
  { intros v Sv Lt.
    rewrite (apply_threshold_frame _ _ _ _ G2) in Sv by discriminate.
    revert G2. unfold apply_threshold, dict_getitem.
    unfold field in Sv. rewrite Sv. simpl. rewrite Lt. simpl.
    intros [= <-]. apply field_set_same. }
  exists pre, r1.
  split; [reflexivity|].
  split; [rewrite process_row_unfold, Mod, G1; reflexivity|].
  split; [apply (apply_threshold_frame _ _ _ _ G1); discriminate|].
  split; [apply (apply_threshold_frame _ _ _ _ G2); discriminate|].
  split; [apply (apply_threshold_frame _ _ _ _ G1); discriminate|].
  split; [apply (apply_threshold_frame _ _ _ _ G2); discriminate|].
  split; [|split; [|exact general]].
  - intros flag F T.
    revert G1 G2 F. unfold apply_threshold, dict_getitem, py_lt_int.
    destruct (dict_get pre (PStr "severity")) as [v|]; simpl; [|discriminate].
    destruct (as_num v) as [n|]; simpl; [|discriminate].
    destruct (num_ltb n (Fin m2 0)) eqn:B2; intros G1 [= <-] F.
    + rewrite field_set_same in F. injection F as <-. discriminate.
    + destruct (num_ltb n (Fin m1 0)) eqn:B1.
      * apply (num_ltb_mono _ _ _ L) in B1. congruence.
      * injection G1 as <-. exact F.
  - intros s Sv Lt. apply (general _ Sv).
    rewrite py_lt_int_int. f_equal. now apply Z.ltb_lt.
Qed.

Lemma threshold_monotone_witness :
  let E := answering (Content (PStr
             (verdict "true" (Json.quoted "toxicity") "7" (Json.quoted "rude")))) in
  let row := comment 3 "cyd" "you again" in
  5 <= 8 /\
  exists r1 r2 w2,
    process_row E 8 row fresh = Ok (r2, w2) /\
    process_row E 5 row fresh = Ok (r1, w2) /\
    field r1 "is_offensive" = Some (PBool true) /\
    field r2 "is_offensive" = Some (PBool false) /\
    field r1 "severity" = Some (PInt 7) /\
    field r2 "severity" = Some (PInt 7).
Proof.
  intros E row. split; [lia|].
  destruct (process_row E 8 row fresh) as [[r2 w2]|] eqn:P2;
    [|vm_compute in P2; discriminate].
  assert (L : 5 <= 8) by lia.
  destruct (threshold_monotone E row fresh w2 5 8 r2 L P2)
    as (pre & r1 & M & P1 & S1 & S2 & _ & _ & _ & Flip & _).
  exists r1, r2, w2.
  assert (Sev : field r2 "severity" = Some (PInt 7))
    by (vm_compute in P2; injection P2 as <- <-; reflexivity).
  split; [reflexivity|]. split; [exact P1|].
  split; [|split; [apply (Flip 7 Sev); lia|split; [congruence|exact Sev]]].
  vm_compute in P1. injection P1 as <- _. reflexivity.
Defined.

(* ================================================================== *)
(** * The batch loop *)
(* ================================================================== *)

Section Batch.

Variable E : Env.
Variable min_severity : Z.

(** When every iteration returns a record related to its row by [Q], the
    loop returns, having appended one such record per row, in order. *)
Lemma process_rows_Forall2 (Q : Comment -> dict -> Prop) :
  (forall row w, exists r w',
      process_row E min_severity row w = Ok (r, w') /\ Q row r) ->
  forall rows results w, exists rs w',
    process_rows E min_severity rows results w = Ok ((results ++ rs)%list, w') /\
    Forall2 Q rows rs.
Proof.
  intros Step.
  induction rows as [|row rows IH]; intros results w; simpl.
  - exists [], w. rewrite app_nil_r. split; [reflexivity|constructor].
  - destruct (Step row w) as (r & w1 & P & HQ).
    destruct (IH (results ++ [r])%list w1) as (rs & w' & R & F).
    exists (r :: rs), w'. unfold bind. rewrite P, R.
    rewrite <- app_assoc. split; [reflexivity|now constructor].
Qed.

Lemma process_comments_Forall2 (Q : Comment -> dict -> Prop) :
  (forall row w, exists r w',
      process_row E min_severity row w = Ok (r, w') /\ Q row r) ->
  forall df w, exists results w',
    process_comments E df min_severity w = Ok (pd_DataFrame results, w') /\
    List.length results = List.length df /\
    Forall2 Q df results.
Proof.
  intros Step df w.
  destruct (process_rows_Forall2 Q Step df [] w) as (rs & w' & R & F).
  exists rs, w'. unfold process_comments, bind, ret. rewrite R. simpl.
  split; [reflexivity|]. split; [|exact F].
  symmetry. exact (Forall2_length F).
Qed.

(** The loop returns only if every iteration did; its records are then in
    the order of the rows. *)
Lemma process_rows_inv : forall rows results w out w',
  process_rows E min_severity rows results w = Ok (out, w') ->
  exists rs, out = (results ++ rs)%list /\ List.length rs = List.length rows.
Proof.
  induction rows as [|row rows IH]; intros results w out w' R; simpl in R.
  - injection R as <- <-. exists []. now rewrite app_nil_r.
  - unfold bind in R.
    destruct (process_row E min_severity row w) as [[r w1]|]; [|discriminate].
    apply IH in R as (rs & -> & L).
    exists (r :: rs). rewrite <- app_assoc. simpl. auto.
Qed.

Lemma process_comments_length df w analyzed_df w' :
  process_comments E df min_severity w = Ok (analyzed_df, w') ->
  List.length (records analyzed_df) = List.length df.
Proof.
  intros P. unfold process_comments, bind, ret in P.
  destruct (process_rows E min_severity df [] w) as [[rs w1]|] eqn:R;
    [|discriminate].
  injection P as <- _.
  apply process_rows_inv in R as (rs' & -> & L). exact L.
Qed.

End Batch.

(* ================================================================== *)
(** * Failure absorption *)
(* ================================================================== *)

(** C9.  When the remote classifier fails on every call, the batch returns
    one record per comment, and the record of every comment that the lexical
    filter did not flag has [is_offensive = False], [severity = 0],
    [offense_type = None] and the explanation "Analysis failed". *)
Theorem failure_absorption (E : Env) (min_severity : Z) (df : list Comment)
    (w : World) :
  (forall n c, classify E (requests_post E n c) = PNone) ->
  exists results w',
    process_comments E df min_severity w = Ok (pd_DataFrame results, w') /\
    List.length results = List.length df /\
    Forall2 (fun row r =>
               contains_profanity E (comment_text row) = false ->
               field r "is_offensive" = Some (PBool false) /\
               field r "severity" = Some (PInt 0) /\
               field r "offense_type" = Some PNone /\
               field r "explanation" = Some (PStr "Analysis failed"))
            df results.
Proof.
  intros Fails.
  apply process_comments_Forall2.
  intros row w0.
  rewrite process_row_unfold.
  destruct (contains_profanity E (comment_text row)) eqn:Local.
  - rewrite (moderate_local E row w0 Local).
    destruct (apply_threshold_number min_severity (flagged_record row) (PInt 5))
      as (below & _ & ->); [reflexivity..|].
    eexists; eexists. split; [reflexivity|discriminate].
  - rewrite (moderate_remote E row w0 Local).
    unfold outcome. rewrite Fails. simpl py_truthy. cbv iota.
    destruct (apply_threshold_number min_severity (failed_record row) (PInt 0))
      as (below & _ & ->); [reflexivity..|].
    eexists; eexists. split; [reflexivity|].
    intros _. destruct below; repeat split; reflexivity.
Qed.

Lemma failure_absorption_witness :
  (forall n c, classify (answering Failed)
                 (requests_post (answering Failed) n c) = PNone) /\
  exists results w',
    process_comments (answering Failed)
      [comment 1 "ann" "hello"; comment 2 "bob" "darn it"; comment 3 "cyd" "bye"]
      1 fresh = Ok (pd_DataFrame results, w') /\
    List.length results = 3%nat.
Proof.
  assert (Fails : forall n c, classify (answering Failed)
                    (requests_post (answering Failed) n c) = PNone)
    by (intros; reflexivity).
  split; [exact Fails|].
  destruct (failure_absorption (answering Failed) 1
              [comment 1 "ann" "hello"; comment 2 "bob" "darn it";
               comment 3 "cyd" "bye"] fresh Fails)
    as (results & w' & P & L & _).
  exists results, w'. split; assumption.
Defined.

(* ================================================================== *)
(** * What [result.update] writes *)
(* ================================================================== *)

Section RemotePath.

Variable E : Env.

(** The record before the gate when the classifier returned an object. *)
Lemma moderate_object row w d :
  contains_profanity E (comment_text row) = false ->
  outcome E row w = PDict d -> d <> [] ->
  moderate E row w = Ok (dict_merge (initial_record row) d, after_remote row w).
Proof.
  intros Local Out NE.
  rewrite (moderate_remote E row w Local), Out.
  destruct d; [contradiction|reflexivity].
Qed.

(** The record before the gate when the classifier returned a false value. *)
Lemma moderate_failed row w :
  contains_profanity E (comment_text row) = false ->
  py_truthy (outcome E row w) = false ->
  moderate E row w = Ok (failed_record row, after_remote row w).
Proof.
  intros Local Out.
  rewrite (moderate_remote E row w Local), Out. reflexivity.
Qed.

(** An absorbable outcome leaves a numeric severity in the record. *)
Lemma moderate_absorbable row w :
  contains_profanity E (comment_text row) = true \/
  absorbable (outcome E row w) = true ->
  exists pre w' v,
    moderate E row w = Ok (pre, w') /\
    field pre "severity" = Some v /\ is_number v = true.
Proof.
  destruct (contains_profanity E (comment_text row)) eqn:Local.
  - intros _. rewrite (moderate_local E row w Local).
    exists (flagged_record row), w, (PInt 5). repeat split.
  - intros [F|A]; [discriminate|].
    destruct (py_truthy (outcome E row w)) eqn:T.
    + unfold absorbable in A. rewrite T in A. simpl in A.
      destruct (outcome E row w) as [| | | | | |d] eqn:Out; try discriminate.
      assert (NE : d <> []) by (destruct d; [discriminate|congruence]).
      rewrite (moderate_object row w d Local Out NE).
      destruct (severity_merge d (initial_record row) (PInt 0) A)
        as (v & Sv & Iv); [reflexivity..|].
      eauto 6.
    + rewrite (moderate_failed row w Local T).
      exists (failed_record row), (after_remote row w), (PInt 0).
      repeat split.
Qed.

Lemma process_row_absorbable ms row w :
  contains_profanity E (comment_text row) = true \/
  absorbable (outcome E row w) = true ->
  exists pre r w',
    moderate E row w = Ok (pre, w') /\
    process_row E ms row w = Ok (r, w') /\
    apply_threshold ms pre = Ok r.
Proof.
  intros H.
  destruct (moderate_absorbable row w H) as (pre & w' & v & M & Sv & Iv).
  destruct (apply_threshold_number ms pre v Sv Iv) as (below & _ & G).
  exists pre, (if below then dict_set pre (PStr "is_offensive") (PBool false)
               else pre), w'.
  rewrite process_row_unfold, M, G. auto.
Qed.

End RemotePath.

(** C2, as the code has it.  On the remote path, a classification result
    that is a non-empty object is written into the record key by key
    ([dict.update]).  The fields [comment_id], [username] and [comment_text]
    of the record equal those of the input comment whenever the object names
    none of the three, before the gate and in every record the policy
    returns. *)
Theorem update_keeps_comment_fields (E : Env) (min_severity : Z)
    (row : Comment) (w : World) (d : dict) :
  contains_profanity E (comment_text row) = false ->
  outcome E row w = PDict d -> d <> [] ->
  keeps_comment_fields d = true ->
  moderate E row w = Ok (dict_merge (initial_record row) d, after_remote row w) /\
  forall final w',
    process_row E min_severity row w = Ok (final, w') ->
    field final "comment_id" = Some (comment_id row) /\
    field final "username" = Some (username row) /\
    field final "comment_text" = Some (comment_text row).
Proof.
  intros Local Out NE K.
  pose proof (moderate_object E row w d Local Out NE) as M.
  split; [exact M|].
  intros final w' P.
  rewrite process_row_unfold, M in P.
  destruct (apply_threshold min_severity _) as [r|] eqn:G; [|discriminate].
  injection P as <- <-.
  unfold keeps_comment_fields in K.
  apply andb_prop in K as [K K3]. apply andb_prop in K as [K1 K2].
  rewrite !(apply_threshold_frame _ _ _ _ G) by discriminate.
  rewrite !field_merge_lacks by assumption.
  repeat split.
Qed.

Lemma update_keeps_comment_fields_witness :
  let E := answering (Content (PStr
             (verdict "true" (Json.quoted "toxicity") "7" (Json.quoted "rude")))) in
  let row := comment 3 "cyd" "you again" in
  contains_profanity E (comment_text row) = false /\
  exists final w',
    process_row E 1 row fresh = Ok (final, w') /\
    field final "comment_id" = Some (PInt 3) /\
    field final "username" = Some (PStr "cyd") /\
    field final "comment_text" = Some (PStr "you again") /\
    field final "severity" = Some (PInt 7).
Proof.
  intros E row. split; [reflexivity|].
  destruct (process_row E 1 row fresh) as [[final w']|] eqn:P;
    [|vm_compute in P; discriminate].
  destruct (update_keeps_comment_fields E 1 row fresh
              [ (PStr "is_offensive", PBool true);
                (PStr "offense_type", PStr "toxicity");
                (PStr "severity", PInt 7);
                (PStr "explanation", PStr "rude") ])
    as [_ Keep]; [reflexivity|reflexivity|discriminate|reflexivity|].
  destruct (Keep final w' P) as (I & U & T).
  exists final, w'. repeat split; try assumption.
  vm_compute in P. injection P as <- _. reflexivity.
Defined.

(** C2 as stated fails: an object that carries the four required fields and
    a key [comment_id] passes the field check of the client, and [update]
    puts its value in the place of the comment's identifier. *)
Lemma update_overwrites_comment_id :
  let body := object [ member "is_offensive" "false";
                       member "offense_type" (Json.quoted "none");
                       member "severity" "1";
                       member "explanation" (Json.quoted "ok");
                       member "comment_id" "999" ] in
  let E := answering (Content (PStr body)) in
  let row := comment 1 "ann" "hello" in
  contains_profanity E (comment_text row) = false /\
  all_fields_in (outcome E row fresh) required_fields = Ok true /\
  exists final w',
    process_row E 1 row fresh = Ok (final, w') /\
    comment_id row = PInt 1 /\
    field final "comment_id" = Some (PInt 999).
Proof.
  intros body E row.
  split; [reflexivity|]. split; [reflexivity|].
  eexists; eexists. split; [vm_compute; reflexivity|]. split; reflexivity.
Qed.

(* ================================================================== *)
(** * What the policy absorbs *)
(* ================================================================== *)

(** C4, as the code has it.  The policy returns a record for a comment that
    the lexical filter flags, and for a comment whose classification is a
    failure (or any false value) or an object whose severity is a number.
    Nothing validates the fields of a classification result: for other
    results the policy may raise. *)
Theorem policy_absorbs (E : Env) (min_severity : Z) (row : Comment) (w : World) :
  contains_profanity E (comment_text row) = true \/
  absorbable (outcome E row w) = true ->
  exists r w', process_row E min_severity row w = Ok (r, w').
Proof.
  intros H.
  destruct (process_row_absorbable E min_severity row w H)
    as (pre & r & w' & _ & P & _).
  eauto.
Qed.

Lemma policy_absorbs_witness :
  let E := answering (Content (PStr "no verdict today")) in
  let row := comment 4 "dee" "fine weather" in
  absorbable (outcome E row fresh) = true /\
  exists r w', process_row E 1 row fresh = Ok (r, w').
Proof.
  intros E row.
  assert (A : absorbable (outcome E row fresh) = true) by reflexivity.
  split; [exact A|].
  exact (policy_absorbs E 1 row fresh (or_intror A)).
Defined.

(** C4 as stated fails: a result whose severity is a string passes the field
    check of the client, and the comparison with the threshold raises
    [TypeError] out of the loop. *)
Lemma policy_raises_on_text_severity :
  let body := verdict "true" (Json.quoted "toxicity") (Json.quoted "high")
                      (Json.quoted "rude") in
  let E := answering (Content (PStr body)) in
  let row := comment 1 "ann" "hello" in
  outcome E row fresh =
    PDict [ (PStr "is_offensive", PBool true);
            (PStr "offense_type", PStr "toxicity");
            (PStr "severity", PStr "high");
            (PStr "explanation", PStr "rude") ] /\
  process_row E 1 row fresh = Raise TypeError /\
  process_comments E [row] 1 fresh = Raise TypeError.
Proof.
  intros body E row. repeat split; vm_compute; reflexivity.
Qed.

(* ================================================================== *)
(** * The record invariant *)
(* ================================================================== *)

(** C5, as the code has it.  In a record that the policy returns with a true
    [is_offensive], the severity is not below the threshold (an integer
    severity is at least [min_severity], hence at least 1 under the default
    threshold and any higher one); if the lexical filter flagged the
    comment, the record has [offense_type = "profanity"] and [severity = 5];
    otherwise the classifier returned a true value, so that a failed
    classification never yields an offensive record.  Nothing is promised of
    the [offense_type] that a classifier returns. *)
Theorem offensive_record_invariant (E : Env) (min_severity : Z)
    (row : Comment) (w w' : World) (r : dict) (flag : pyval) :
  process_row E min_severity row w = Ok (r, w') ->
  field r "is_offensive" = Some flag ->
  py_truthy flag = true ->
  (exists v, field r "severity" = Some v /\
             py_lt_int v min_severity = Ok false) /\
  (forall s, field r "severity" = Some (PInt s) -> min_severity <= s) /\
  (contains_profanity E (comment_text row) = true ->
   field r "offense_type" = Some (PStr "profanity") /\
   field r "severity" = Some (PInt 5)) /\
  (contains_profanity E (comment_text row) = false ->
   py_truthy (outcome E row w) = true).
Proof.
  intros P F T.
  rewrite process_row_unfold in P.
  destruct (moderate E row w) as [[pre w0]|] eqn:Mod; [|discriminate].
  destruct (apply_threshold min_severity pre) as [r0|] eqn:G; [|discriminate].
  injection P as -> ->.
  assert (Pass : exists v, field pre "severity" = Some v /\
                           py_lt_int v min_severity = Ok false /\ r = pre).
  { revert G. unfold apply_threshold, dict_getitem, field.
    destruct (dict_get pre (PStr "severity")) as [v|]; simpl; [|discriminate].
    destruct (py_lt_int v min_severity) as [[|]|] eqn:Lt; simpl;
      try discriminate.
    - intros [= <-]. rewrite field_set_same in F. injection F as <-.
      discriminate.
    - intros [= <-]. exists v. auto. }
  destruct Pass as (v & Sv & Lt & ->).
  split; [eauto|]. split; [|split].
  - intros s Ss. rewrite Sv in Ss. injection Ss as ->.
    rewrite py_lt_int_int in Lt. injection Lt as Lt.
    now apply Z.ltb_ge.
  - intros Local. rewrite (moderate_local E row w Local) in Mod.
    injection Mod as <- _. split; reflexivity.
  - intros Local.
    destruct (py_truthy (outcome E row w)) eqn:Out; [reflexivity|].
    rewrite (moderate_failed E row w Local Out) in Mod.
    injection Mod as <- _. injection F as <-. discriminate.
Qed.

Lemma offensive_record_invariant_witness :
  let E := answering (Content (PStr
             (verdict "true" (Json.quoted "toxicity") "7" (Json.quoted "rude")))) in
  let row := comment 3 "cyd" "you again" in
  exists r w',
    process_row E 1 row fresh = Ok (r, w') /\
    field r "is_offensive" = Some (PBool true) /\
    py_truthy (PBool true) = true /\
    field r "severity" = Some (PInt 7) /\
    1 <= 7.
Proof.
  intros E row.
  destruct (process_row E 1 row fresh) as [[r w']|] eqn:P;
    [|vm_compute in P; discriminate].
  assert (F : field r "is_offensive" = Some (PBool true))
    by (vm_compute in P; injection P as <- _; reflexivity).
  assert (S : field r "severity" = Some (PInt 7))
    by (vm_compute in P; injection P as <- _; reflexivity).
  destruct (offensive_record_invariant E 1 row fresh w' r (PBool true)
              P F eq_refl) as (_ & Bound & _).
  exists r, w'. repeat split; try assumption.
  exact (Bound 7 S).
Defined.

(** C5 as stated fails.  A result with [is_offensive] true and a null
    [offense_type] passes the field check of the client and is written into
    the record as it is; and under a threshold of 0 a result with
    [is_offensive] true and severity 0 stays offensive. *)
Lemma offensive_record_without_type :
  let row := comment 1 "ann" "hello" in
  (exists r w',
     process_row (answering (Content (PStr
         (verdict "true" "null" "7" (Json.quoted "rude"))))) 1 row fresh
       = Ok (r, w') /\
     field r "is_offensive" = Some (PBool true) /\
     field r "offense_type" = Some PNone) /\
  (exists r w',
     process_row (answering (Content (PStr
         (verdict "true" (Json.quoted "toxicity") "0" (Json.quoted "mild")))))
         0 row fresh = Ok (r, w') /\
     field r "is_offensive" = Some (PBool true) /\
     field r "severity" = Some (PInt 0)).
Proof.
  intros row. split; eexists; eexists;
    (split; [vm_compute; reflexivity|split; reflexivity]).
Qed.

(* ================================================================== *)
(** * Order preservation *)
(* ================================================================== *)

Section Order.

Variable E : Env.

Lemma keeps_id_absorbable v : keeps_id v = true -> absorbable v = true.
Proof.
  unfold keeps_id, absorbable.
  destruct (py_truthy v); simpl; [|reflexivity].
  destruct v; try discriminate.
  intros H. now apply andb_prop in H.
Qed.

Lemma moderate_keeps_id row w pre w' :
  keeps_id (outcome E row w) = true ->
  moderate E row w = Ok (pre, w') ->
  field pre "comment_id" = Some (comment_id row).
Proof.
  intros K M.
  destruct (contains_profanity E (comment_text row)) eqn:Local.
  - rewrite (moderate_local E row w Local) in M. now injection M as <- _.
  - destruct (py_truthy (outcome E row w)) eqn:T.
    + unfold keeps_id in K. rewrite T in K. simpl in K.
      destruct (outcome E row w) as [| | | | | |d] eqn:Out; try discriminate.
      assert (NE : d <> []) by (destruct d; [discriminate|congruence]).
      rewrite (moderate_object E row w d Local Out NE) in M.
      injection M as <- _.
      apply andb_prop in K as [_ K].
      now rewrite field_merge_lacks.
    + rewrite (moderate_failed E row w Local T) in M. now injection M as <- _.
Qed.

Lemma process_row_keeps_id ms row w :
  keeps_id (outcome E row w) = true ->
  exists r w',
    process_row E ms row w = Ok (r, w') /\
    field r "comment_id" = Some (comment_id row).
Proof.
  intros K.
  destruct (process_row_absorbable E ms row w
              (or_intror (keeps_id_absorbable _ K)))
    as (pre & r & w' & M & P & G).
  exists r, w'. split; [exact P|].
  rewrite (apply_threshold_frame _ _ _ _ G) by discriminate.
  exact (moderate_keeps_id row w pre w' K M).
Qed.

End Order.

Lemma Forall2_nth_error {A B} (Q : A -> B -> Prop) l l' :
  Forall2 Q l l' ->
  forall i a, nth_error l i = Some a ->
              exists b, nth_error l' i = Some b /\ Q a b.
Proof.
  induction 1 as [|x y l l' HQ F IH]; intros [|i] a; simpl; try discriminate.
  - intros [= <-]. eauto.
  - apply IH.
Qed.




(* ================================================================== *)
(** * The client's two parse paths *)
(* ================================================================== *)

Section ParsePaths.

Variable E : Env.

Lemma has_key_lacks d f :
  existsb (fun k => key_eqb k (PStr f)) (dict_keys d) = negb (lacks d f).
Proof.
  unfold lacks, dict_keys.
  induction d as [|[k v] d IH]; simpl; [reflexivity|].
  rewrite IH. now destruct (key_eqb k (PStr f)).
Qed.

Lemma all_fields_in_object d fields :
  all_fields_in (PDict d) fields =
  Ok (forallb (fun f => negb (lacks d f)) fields).
Proof.
  induction fields as [|f fields IH]; simpl; [reflexivity|].
  rewrite has_key_lacks.
  destruct (lacks d f); simpl; [reflexivity|exact IH].
Qed.

(** X3.  The direct path: an object that parses at once and lacks one of
    the four required fields is a failure. *)
Lemma direct_path_checks_fields s d f :
  json_loads E s = Some (PDict d) ->
  In f required_fields -> lacks d f = true ->
  classify E (Content (PStr s)) = PNone.
Proof.
  intros J I L.
  unfold classify, parse_content, direct_parse, py_json_loads.
  rewrite J. cbn [rbind]. rewrite all_fields_in_object.
  assert (X : forallb (fun f => negb (lacks d f)) required_fields = false).
  { destruct (forallb _ required_fields) eqn:A; [|reflexivity].
    rewrite forallb_forall in A. specialize (A f I).
    rewrite L in A. discriminate. }
  rewrite X. reflexivity.
Qed.

(** The fallback path: whatever the text between the first opening and the
    last closing brace parses to is returned, fields or not. *)
Lemma fallback_path_returns_unchecked s v :
  json_loads E s = None ->
  str_find "{" s <> -1 -> str_rfind "}" s + 1 <> 0 ->
  json_loads E (str_slice s (str_find "{" s) (str_rfind "}" s + 1)) = Some v ->
  classify E (Content (PStr s)) = v.
Proof.
  intros J S T J'.
  unfold classify, parse_content, direct_parse, py_json_loads.
  rewrite J. cbn [rbind]. unfold brace_fallback, py_json_loads.
  apply Z.eqb_neq in S, T. rewrite S, T. simpl. now rewrite J'.
Qed.

End ParsePaths.

(** C3, where the code departs from it.  The body below does not parse at
    once, the text between its braces does, and the client returns the
    object found there although three of the four required fields are
    missing; the same object sent without the surrounding prose is a
    failure. *)
Lemma fallback_misses_field_check :
  let found := object [member "is_offensive" "true"] in
  let E := answering Failed in
  json_loads E ("Sure! " ++ found) = None /\
  classify E (Content (PStr ("Sure! " ++ found)))
    = PDict [(PStr "is_offensive", PBool true)] /\
  all_fields_in (PDict [(PStr "is_offensive", PBool true)]) required_fields
    = Ok false /\
  classify E (Content (PStr found)) = PNone.
Proof.
  intros found E. repeat split; vm_compute; reflexivity.
Qed.

(* ================================================================== *)
(** * Facts about the report *)
(* ================================================================== *)

Lemma rbind_Ok {A B} (c : res A) (k : A -> res B) b :
  rbind c k = Ok b -> exists a, c = Ok a /\ k a = Ok b.
Proof. destruct c; simpl; [eauto|discriminate]. Qed.

Lemma no_zero_division_rbind {A B} (c : res A) (k : A -> res B) :
  no_zero_division c -> (forall a, no_zero_division (k a)) ->
  no_zero_division (rbind c k).
Proof.
  destruct c; simpl; intros H1 H2; [apply H2|].
  intros [= ->]. now apply H1.
Qed.

Section ResFacts.

Context {A B : Type}.

Lemma map_res_Ok (f : A -> res B) l :
  Forall (fun a => exists b, f a = Ok b) l -> exists bs, map_res f l = Ok bs.
Proof.
  induction 1 as [|a l [b Hb] _ [bs IH]]; simpl; [eauto|].
  rewrite Hb, IH. simpl. eauto.
Qed.

Lemma map_res_Forall2 (f : A -> res B) : forall l bs,
  map_res f l = Ok bs -> Forall2 (fun a b => f a = Ok b) l bs.
Proof.
  induction l as [|a l IH]; simpl; intros bs H.
  - injection H as <-. constructor.
  - apply rbind_Ok in H as (b & Hb & H).
    apply rbind_Ok in H as (bs' & Hbs & H).
    injection H as <-. constructor; auto.
Qed.

Lemma no_zero_division_map_res (f : A -> res B) l :
  (forall a, no_zero_division (f a)) -> no_zero_division (map_res f l).
Proof.
  intros Hf. induction l as [|a l IH]; simpl; [discriminate|].
  apply no_zero_division_rbind; [apply Hf|]. intros b.
  apply no_zero_division_rbind; [exact IH|]. discriminate.
Qed.

End ResFacts.

Section TakeFacts.

Context {A : Type}.

Lemma take_In (rows : list A) positions x :
  In x (take rows positions) -> In x rows.
Proof.
  unfold take. rewrite in_flat_map. intros (i & _ & H).
  destruct (nth_error rows i) eqn:N; [|contradiction].
  destruct H as [<-|[]]. eapply nth_error_In; eauto.
Qed.

Lemma firstn_In n (rows : list A) x : In x (firstn n rows) -> In x rows.
Proof.
  intros I. rewrite <- (firstn_skipn n rows). apply in_or_app. now left.
Qed.

Lemma take_seq_app (rows : list A) : forall before,
  take (before ++ rows) (seq (List.length before) (List.length rows)) = rows.
Proof.
  induction rows as [|a rows IH]; intros before; simpl; [reflexivity|].
  rewrite nth_error_app2, Nat.sub_diag by lia. simpl. f_equal.
  specialize (IH (before ++ [a])%list).
  rewrite <- app_assoc, length_app, Nat.add_1_r in IH. exact IH.
Qed.

Lemma take_seq (rows : list A) :
  take rows (seq 0 (List.length rows)) = rows.
Proof. exact (take_seq_app rows []). Qed.

(** Taking the rows at a permutation of their positions permutes them. *)
Lemma take_Permutation (rows : list A) positions :
  Permutation positions (seq 0 (List.length rows)) ->
  Permutation (take rows positions) rows.
Proof.
  intros P. rewrite <- (take_seq rows) at 2.
  unfold take. now apply Permutation_flat_map.
Qed.

Lemma take_map {B} (f : A -> B) (rows : list A) positions :
  map f (take rows positions) = take (map f rows) positions.
Proof.
  unfold take. induction positions as [|i ps IH]; simpl; [reflexivity|].
  rewrite map_app, IH, nth_error_map.
  now destruct (nth_error rows i).
Qed.

End TakeFacts.

Lemma take_nth (keys : list Z) positions :
  Forall (fun i => (i < List.length keys)%nat) positions ->
  take keys positions = map (fun i => nth i keys 0) positions.
Proof.
  unfold take. induction 1 as [|i ps Hi _ IH]; simpl; [reflexivity|].
  rewrite IH. apply nth_error_Some in Hi.
  destruct (nth_error keys i) eqn:N; [|contradiction].
  simpl. f_equal. symmetry. now apply nth_error_nth.
Qed.

Section ReportFacts.

Variable sort_desc : list Z -> list nat.

Lemma value_counts_no_zero_division cells :
  no_zero_division (value_counts sort_desc cells).
Proof. unfold value_counts. destruct (forallb _ _); discriminate. Qed.

Lemma df_getitem_no_zero_division df c : no_zero_division (df_getitem df c).
Proof. unfold df_getitem. destruct (has_column df c); discriminate. Qed.

Lemma row_getitem_no_zero_division df r c :
  no_zero_division (row_getitem df r c).
Proof. unfold row_getitem. destruct (has_column df c); discriminate. Qed.

Lemma title_no_zero_division v : no_zero_division (title v).
Proof. destruct v; discriminate. Qed.

Lemma offender_no_zero_division df r s :
  no_zero_division (offender df r s).
Proof.
  unfold offender.
  repeat (apply no_zero_division_rbind;
          [first [apply row_getitem_no_zero_division
                 |apply title_no_zero_division]|intros ?]).
  discriminate.
Qed.

Lemma breakdown_no_zero_division df offensive :
  no_zero_division (breakdown sort_desc df offensive).
Proof.
  unfold breakdown.
  apply no_zero_division_rbind; [apply df_getitem_no_zero_division|intros kinds].
  apply no_zero_division_rbind; [apply value_counts_no_zero_division|intros cs].
  apply no_zero_division_rbind.
  { apply no_zero_division_map_res. intros oc.
    apply no_zero_division_rbind; [apply title_no_zero_division|discriminate]. }
  intros labelled.
  apply no_zero_division_rbind; [apply df_getitem_no_zero_division|intros a].
  apply no_zero_division_rbind; [apply df_getitem_no_zero_division|intros b].
  destruct (int64_cells a); [|discriminate].
  destruct (int64_cells b); [|discriminate].
  apply no_zero_division_rbind; [|discriminate].
  unfold top_five. apply no_zero_division_map_res. intros rs.
  apply offender_no_zero_division.
Qed.

(** The divisor of the ratio is the number of rows: with at least one row
    the report does not divide by zero. *)
Lemma generate_report_no_zero_division df :
  records df <> [] -> no_zero_division (generate_report sort_desc df).
Proof.
  intros NE. unfold generate_report.
  apply no_zero_division_rbind; [apply df_getitem_no_zero_division|intros _].
  apply no_zero_division_rbind.
  { destruct (records df); [contradiction|]. simpl. discriminate. }
  intros share.
  apply no_zero_division_rbind; [|discriminate].
  destruct (records (df_filter _ df)); [discriminate|].
  apply breakdown_no_zero_division.
Qed.

End ReportFacts.

Section TypedFrames.

Variable sort_desc : list Z -> list nat.

Lemma typed_record_severity r :
  typed_record r = true ->
  exists s, cell r "severity" = PInt s /\ int64 s = true.
Proof.
  unfold typed_record, cell, field.
  destruct (dict_get r (PStr "is_offensive")) as [[]|]; try discriminate.
  destruct (dict_get r (PStr "severity")) as [[]|]; try discriminate.
  intros H. apply andb_prop in H as [I _]. eauto.
Qed.

Lemma typed_record_offense r :
  typed_record r = true -> offensive_row r = true ->
  exists t, cell r "offense_type" = PStr t.
Proof.
  unfold typed_record, offensive_row, cell, field.
  destruct (dict_get r (PStr "is_offensive")) as [[|b| | | | |]|];
    try discriminate.
  destruct (dict_get r (PStr "severity")) as [[]|]; try discriminate.
  intros H O. apply andb_prop in H as [_ H].
  destruct b; [|discriminate O]. simpl in H.
  destruct (dict_get r (PStr "offense_type")) as [[]|]; try discriminate.
  eauto.
Qed.

Lemma int64_cells_typed cells :
  Forall (fun v => exists s, v = PInt s /\ int64 s = true) cells ->
  exists xs, int64_cells cells = Some xs.
Proof.
  induction 1 as [|v cells (s & -> & I) _ [xs IH]]; simpl; [eauto|].
  rewrite I, IH. eauto.
Qed.

Lemma int64_cells_Some : forall cells xs,
  int64_cells cells = Some xs -> cells = map PInt xs.
Proof.
  induction cells as [|v cells IH]; simpl; intros xs H.
  - now injection H as <-.
  - destruct v; try discriminate.
    destruct (int64 z); [|discriminate].
    destruct (int64_cells cells) as [zs|]; [|discriminate].
    injection H as <-. simpl. f_equal. now apply IH.
Qed.

Lemma tally_strings counts t :
  Forall (fun kv : pyval * nat => exists u, fst kv = PStr u) counts ->
  Forall (fun kv : pyval * nat => exists u, fst kv = PStr u)
         (tally counts (PStr t)).
Proof.
  induction 1 as [|[k n] counts Hk Hc IH]; simpl.
  - repeat constructor. simpl. eauto.
  - destruct Hk as [u Hu]. simpl in Hu.
    destruct (key_eqb k (PStr t)); constructor; simpl; eauto.
Qed.

Lemma value_counts_strings cells :
  Forall (fun v => exists t, v = PStr t) cells ->
  exists counts,
    value_counts sort_desc cells = Ok counts /\
    Forall (fun kv => exists u, fst kv = PStr u) counts.
Proof.
  intros S. unfold value_counts.
  assert (H : forallb hashable cells = true).
  { apply forallb_forall. intros v I.
    rewrite Forall_forall in S. destruct (S v I) as [t ->]. reflexivity. }
  rewrite H. eexists. split; [reflexivity|].
  apply Forall_forall. intros kv I. apply take_In in I. revert kv I.
  apply Forall_forall.
  assert (G : forall cs acc,
             Forall (fun v => exists t, v = PStr t) cs ->
             Forall (fun kv : pyval * nat => exists u, fst kv = PStr u) acc ->
             Forall (fun kv : pyval * nat => exists u, fst kv = PStr u)
                    (fold_left tally cs acc)).
  { induction cs as [|c cs IH]; intros acc Hc Ha; simpl; [exact Ha|].
    inversion Hc as [|? ? [t ->] Hcs]; subst.
    apply IH; [exact Hcs|]. now apply tally_strings. }
  apply G; [|constructor].
  apply Forall_forall. intros v I. apply filter_In in I as [I _].
  rewrite Forall_forall in S. exact (S v I).
Qed.

(** On a frame typed as in section 3, with the columns the report reads and
    at least one row, [generate_report] returns. *)
Lemma generate_report_typed df :
  records df <> [] -> typed_frame df = true ->
  exists report,
    generate_report sort_desc df = Ok report /\
    total report = List.length (records df).
Proof.
  intros NE T. unfold typed_frame in T.
  apply andb_prop in T as [Cols Rows].
  simpl in Cols. repeat (apply andb_prop in Cols as [? Cols]).
  rewrite forallb_forall in Rows.
  unfold generate_report, df_getitem.
  replace (has_column df "is_offensive") with true by auto. cbn [rbind].
  destruct (records df) as [|r0 rs] eqn:Rec; [contradiction|].
  cbn [py_truediv List.length rbind].
  set (mask := fun r => py_eq_True (cell r "is_offensive")).
  set (offensive := df_filter mask df).
  assert (HC : forall c, has_column offensive c = has_column df c)
    by reflexivity.
  assert (Off : forall r, In r (records offensive) ->
                          typed_record r = true /\ offensive_row r = true).
  { intros r I. unfold offensive, df_filter in I; simpl in I.
    apply filter_In in I as [I M]. split; [|exact M].
    apply Rows. rewrite <- Rec. exact I. }
  destruct (records offensive) as [|o os] eqn:ORec.
  { cbn [rbind]. eexists. split; reflexivity. }
  rewrite <- ORec in *. clear ORec o os.
  assert (D : exists detail, breakdown sort_desc df offensive = Ok detail).
  { unfold breakdown, df_getitem.
    rewrite !HC.
    replace (has_column df "offense_type") with true by auto.
    replace (has_column df "severity") with true by auto.
    cbn [rbind].
    destruct (value_counts_strings
                (map (fun r => cell r "offense_type") (records offensive)))
      as (counts & -> & Cs).
    { apply Forall_forall. intros v I. apply in_map_iff in I as (r & <- & I).
      destruct (Off r I). now apply typed_record_offense. }
    cbn [rbind].
    destruct (map_res_Ok (fun oc : pyval * nat =>
                            let* label := title (fst oc) in Ok (label, snd oc))
                         counts) as [labelled ->].
    { eapply Forall_impl; [|exact Cs]. intros [k n] [u Hu]; simpl in *.
      subst k. simpl. eauto. }
    cbn [rbind].
    destruct (int64_cells_typed (map (fun r => cell r "severity") (records df)))
      as [all ->].
    { apply Forall_forall. intros v I. apply in_map_iff in I as (r & <- & I).
      apply typed_record_severity, Rows. rewrite <- Rec. exact I. }
    destruct (int64_cells_typed
                (map (fun r => cell r "severity") (records offensive)))
      as [xs ->].
    { apply Forall_forall. intros v I. apply in_map_iff in I as (r & <- & I).
      apply typed_record_severity. now destruct (Off r I). }
    destruct (map_res_Ok
                (fun rs : dict * Z => offender offensive (fst rs) (snd rs))
                (firstn 5 (take (combine (records offensive) xs)
                                (sort_desc xs)))) as [top Top].
    { apply Forall_forall. intros [r s] I.
      apply firstn_In, take_In, in_combine_l in I.
      destruct (Off r I) as [Tr Or].
      destruct (typed_record_offense r Tr Or) as [t Ht].
      unfold offender, row_getitem. rewrite !HC.
      replace (has_column df "username") with true by auto.
      replace (has_column df "comment_text") with true by auto.
      replace (has_column df "offense_type") with true by auto.
      replace (has_column df "explanation") with true by auto.
      cbn [rbind fst snd]. rewrite Ht. cbn [title rbind]. eauto. }
    unfold top_five. rewrite Top. cbn [rbind]. eauto. }
  destruct D as [detail ->]. cbn [rbind].
  eexists. split; reflexivity.
Qed.

End TypedFrames.

(* ================================================================== *)
(** * The report and the empty record set *)
(* ================================================================== *)

Section NoZeroDivision.

Variable E : Env.

Lemma dict_merge_seq_no_zero_division items : forall d,
  no_zero_division (dict_merge_seq d items).
Proof.
  induction items as [|item items IH]; intros d; simpl; [discriminate|].
  destruct (as_sequence item) as [[|k [|v [|]]]|]; try discriminate.
  destruct (hashable k); [apply IH|discriminate].
Qed.

Lemma dict_update_no_zero_division d v : no_zero_division (dict_update d v).
Proof.
  destruct v; simpl; try discriminate; apply dict_merge_seq_no_zero_division.
Qed.

Lemma apply_threshold_no_zero_division ms r :
  no_zero_division (apply_threshold ms r).
Proof.
  unfold apply_threshold, dict_getitem, py_lt_int.
  destruct (dict_get r (PStr "severity")) as [v|]; simpl; [|discriminate].
  destruct (as_num v); simpl; discriminate.
Qed.

Lemma process_row_no_zero_division ms row w :
  no_zero_division (process_row E ms row w).
Proof.
  rewrite process_row_unfold.
  destruct (moderate E row w) as [[r w']|e] eqn:M.
  - pose proof (apply_threshold_no_zero_division ms r) as G.
    destruct (apply_threshold ms r); [discriminate|].
    intros [= ->]. now apply G.
  - intros [= ->]. revert M.
    destruct (contains_profanity E (comment_text row)) eqn:Local.
    + now rewrite (moderate_local E row w Local).
    + rewrite (moderate_remote E row w Local).
      destruct (py_truthy (outcome E row w)); [|discriminate].
      pose proof (dict_update_no_zero_division (initial_record row)
                    (outcome E row w)) as U.
      destruct (dict_update _ _); [discriminate|].
      intros [= ->]. now apply U.
Qed.

Lemma process_rows_no_zero_division ms : forall rows results w,
  no_zero_division (process_rows E ms rows results w).
Proof.
  induction rows as [|row rows IH]; intros results w; simpl; [discriminate|].
  unfold bind.
  pose proof (process_row_no_zero_division ms row w) as P.
  destruct (process_row E ms row w) as [[r w']|e]; [apply IH|].
  intros [= ->]. now apply P.
Qed.

(** [main] hands [generate_report] one record per row of a frame that
    [validate_input_file] accepted, hence at least one. *)
Lemma main_no_zero_division sort_desc loaded ms w :
  no_zero_division (main E sort_desc loaded ms w).
Proof.
  unfold main, bind, lift.
  destruct (validate_input_file loaded) as [df|e] eqn:V; [|].
  2:{ revert V. unfold validate_input_file.
      destruct (filter _ _); [|intros [= <-]; discriminate].
      destruct (columns loaded); [intros [= <-]; discriminate|].
      destruct (records loaded); [intros [= <-]; discriminate|discriminate]. }
  assert (NE : iterrows df <> []).
  { revert V. unfold validate_input_file, iterrows.
    destruct (filter _ _); [|discriminate].
    destruct (columns loaded); [discriminate|].
    destruct (records loaded) eqn:R; [discriminate|].
    intros [= <-]. rewrite R. discriminate. }
  destruct (process_comments E (iterrows df) ms w) as [[analyzed w']|e] eqn:P.
  - pose proof (process_comments_length E ms _ _ _ _ P) as Len.
    pose proof (generate_report_no_zero_division sort_desc analyzed) as G.
    destruct (generate_report sort_desc analyzed); [discriminate|].
    intros [= ->]. apply G; [|reflexivity].
    intros Z. rewrite Z in Len. destruct (iterrows df); [congruence|discriminate].
  - intros [= ->]. revert P. unfold process_comments, bind, ret.
    pose proof (process_rows_no_zero_division ms (iterrows df) [] w) as R.
    destruct (process_rows E ms (iterrows df) [] w) as [[rs w1]|e];
      [discriminate|].
    intros [= ->]. now apply R.
Qed.

End NoZeroDivision.

(** C1, as the code has it.  On a record set with at least one record the
    report does not divide by zero, and it returns whenever the records are
    typed as in section 3 of the specification; [main] never reaches the
    report with an empty record set, so that no run of its three steps ends
    in a division by zero.  On the empty record set itself the report
    raises. *)
Theorem report_on_nonempty_record_set (sort_desc : list Z -> list nat)
    (analyzed_df : DataFrame) :
  records analyzed_df <> [] ->
  generate_report sort_desc analyzed_df <> Raise ZeroDivisionError /\
  (typed_frame analyzed_df = true ->
   exists report,
     generate_report sort_desc analyzed_df = Ok report /\
     total report = List.length (records analyzed_df)) /\
  (forall E loaded min_severity w,
     main E sort_desc loaded min_severity w <> Raise ZeroDivisionError).
Proof.
  intros NE. split; [|split].
  - now apply generate_report_no_zero_division.
  - now apply generate_report_typed.
  - intros E loaded ms w. apply main_no_zero_division.
Qed.

Lemma report_on_nonempty_record_set_witness :
  let analyzed_df :=
    pd_DataFrame [ failed_record (comment 1 "ann" "hello");
                   flagged_record (comment 2 "bob" "darn it") ] in
  records analyzed_df <> [] /\
  typed_frame analyzed_df = true /\
  exists report,
    generate_report sort_ties_reversed analyzed_df = Ok report /\
    total report = 2%nat.
Proof.
  intros analyzed_df.
  assert (NE : records analyzed_df <> []) by discriminate.
  split; [exact NE|]. split; [reflexivity|].
  destruct (report_on_nonempty_record_set sort_ties_reversed analyzed_df NE)
    as (_ & Typed & _).
  exact (Typed eq_refl).
Defined.

(** C1 as stated fails on the empty record set.  The frame that
    [process_comments] builds from no comment has no column, and the report
    raises [KeyError] on its first line; on a frame with the seven columns
    and no row the ratio is [0 / 0], which raises [ZeroDivisionError]. *)
Lemma report_raises_on_empty_record_set :
  process_comments (answering Failed) [] 1 fresh = Ok (pd_DataFrame [], fresh) /\
  generate_report sort_ties_reversed (pd_DataFrame [])
    = Raise (KeyError "is_offensive") /\
  generate_report sort_ties_reversed
    {| columns := map fst (initial_record (comment 0 "" "")); records := [] |}
    = Raise ZeroDivisionError.
Proof. repeat split. Qed.

(* ================================================================== *)
(** * The ranking of the report *)
(* ================================================================== *)

Section CombineFacts.

Context {A B : Type}.

Lemma combine_fst : forall (l : list A) (l' : list B),
  List.length l = List.length l' -> map fst (combine l l') = l.
Proof.
  induction l as [|a l IH]; intros [|b l']; simpl; try discriminate; auto.
  intros [= L]. f_equal. now apply IH.
Qed.

Lemma combine_snd : forall (l : list A) (l' : list B),
  List.length l = List.length l' -> map snd (combine l l') = l'.
Proof.
  induction l as [|a l IH]; intros [|b l']; simpl; try discriminate; auto.
  intros [= L]. f_equal. now apply IH.
Qed.

Lemma combine_related {C} (f : A -> C) (g : B -> C) : forall l l',
  map f l = map g l' ->
  Forall (fun ab => f (fst ab) = g (snd ab)) (combine l l').
Proof.
  induction l as [|a l IH]; intros [|b l'] E; simpl; try discriminate;
    constructor.
  - now injection E.
  - apply IH. now injection E.
Qed.

End CombineFacts.

Section Ranking.

Variable sort_desc : list Z -> list nat.
Hypothesis contract : sorts_descending sort_desc.

(** The rows of a frame, taken in the order the sorting routine gives for
    their keys, are the same rows by descending key. *)
Lemma ranked_descending (rows : list dict) (keys : list Z) :
  List.length rows = List.length keys ->
  Permutation (take (combine rows keys) (sort_desc keys)) (combine rows keys) /\
  Sorted Z.ge (map snd (take (combine rows keys) (sort_desc keys))).
Proof.
  intros L. destruct (contract keys) as [P S].
  split.
  - apply take_Permutation. rewrite length_combine, L, Nat.min_id. exact P.
  - rewrite take_map, combine_snd by exact L.
    rewrite take_nth; [exact S|].
    apply Forall_forall. intros i I.
    apply (Permutation_in _ P), in_seq in I. lia.
Qed.

Lemma offender_fields df r s o :
  offender df r s = Ok o ->
  o_severity o = s /\
  o_user o = cell r "username" /\
  o_comment o = cell r "comment_text" /\
  cell r "offense_type" = PStr (o_type o) /\
  o_analysis o = cell r "explanation".
Proof.
  unfold offender, row_getitem. intros H.
  apply rbind_Ok in H as (user & Hu & H).
  apply rbind_Ok in H as (text & Ht & H).
  apply rbind_Ok in H as (kind & Hk & H).
  apply rbind_Ok in H as (label & Hl & H).
  apply rbind_Ok in H as (analysis & Ha & H).
  injection H as <-. simpl.
  destruct (has_column df "username"); [injection Hu as <-|discriminate].
  destruct (has_column df "comment_text"); [injection Ht as <-|discriminate].
  destruct (has_column df "offense_type"); [injection Hk as <-|discriminate].
  destruct (has_column df "explanation"); [injection Ha as <-|discriminate].
  destruct (cell r "offense_type"); try discriminate.
  injection Hl as <-. repeat split.
Qed.

End Ranking.

Section Sorters.

Lemma Sorted_map_impl {A B} (R : A -> A -> Prop) (R' : B -> B -> Prop)
    (f : A -> B) :
  (forall x y, R x y -> R' (f x) (f y)) ->
  forall l, Sorted R l -> Sorted R' (map f l).
Proof.
  intros HR. induction 1 as [|a l _ IH Hd]; simpl; constructor; auto.
  destruct Hd; simpl; constructor; auto.
Qed.

Lemma combine_seq_nth : forall (keys : list Z) (start : nat),
  Forall (fun ki => (start <= snd ki)%nat /\
                    nth (snd ki - start) keys 0 = fst ki)
         (combine keys (seq start (List.length keys))).
Proof.
  induction keys as [|k keys IH]; intros start; simpl; constructor.
  - simpl. rewrite Nat.sub_diag. auto.
  - eapply Forall_impl; [|apply (IH (S start))].
    intros [k' i] [L N]; simpl in *. split; [lia|].
    replace (i - start)%nat with (S (i - S start)) by lia. exact N.
Qed.

Lemma insert_behind_ties_Permutation x : forall l,
  Permutation (insert_behind_ties x l) (x :: l).
Proof.
  induction l as [|y l IH]; simpl; [reflexivity|].
  destruct (fst y <? fst x); [reflexivity|].
  rewrite IH. apply perm_swap.
Qed.

Lemma insert_behind_ties_Sorted x : forall l,
  Sorted (fun a b : Z * nat => fst a >= fst b) l ->
  Sorted (fun a b : Z * nat => fst a >= fst b) (insert_behind_ties x l).
Proof.
  induction l as [|y l IH]; simpl; intros S.
  - repeat constructor.
  - destruct (Z.ltb_spec (fst y) (fst x)).
    + constructor; [exact S|]. constructor. lia.
    + apply Sorted_inv in S as [S Hd].
      constructor; [now apply IH|].
      destruct l as [|z l]; simpl.
      * constructor. lia.
      * destruct (Z.ltb_spec (fst z) (fst x)); constructor; [lia|].
        now inversion Hd.
Qed.

Lemma insertion_Permutation l :
  Permutation l (fold_right insert_behind_ties [] l).
Proof.
  induction l as [|x l IH]; simpl; [reflexivity|].
  rewrite insert_behind_ties_Permutation. now constructor.
Qed.

Lemma insertion_Sorted l :
  Sorted (fun a b : Z * nat => fst a >= fst b)
         (fold_right insert_behind_ties [] l).
Proof.
  induction l as [|x l IH]; simpl; [constructor|].
  now apply insert_behind_ties_Sorted.
Qed.

(** The insertion sort on (key, position) pairs keeps the promise of
    [sort_values]. *)
Lemma sort_ties_reversed_contract : sorts_descending sort_ties_reversed.
Proof.
  intros keys. unfold sort_ties_reversed.
  set (l := combine keys (seq 0 (List.length keys))).
  pose proof (insertion_Permutation l) as P.
  pose proof (insertion_Sorted l) as S.
  split.
  - apply Permutation_sym.
    replace (seq 0 (List.length keys)) with (map snd l)
      by (apply combine_snd; now rewrite length_seq).
    now apply Permutation_map.
  - rewrite map_map.
    assert (F : Forall (fun ki : Z * nat => nth (snd ki) keys 0 = fst ki)
                       (fold_right insert_behind_ties [] l)).
    { apply (Permutation_Forall P).
      eapply Forall_impl; [|apply (combine_seq_nth keys 0)].
      intros [k i] [_ N]; simpl in *. now rewrite Nat.sub_0_r in N. }
    rewrite (map_ext_Forall _ _ F).
    apply (Sorted_map_impl (fun a b : Z * nat => fst a >= fst b)); [|exact S].
    auto.
Qed.

End Sorters.




(* ================================================================== *)
(** * Further properties of section 8 of the specification *)
(* ================================================================== *)

(** The reference reader on sample texts. *)
Example loads_object :
  Json.loads (" " ++ object [member "a" "[1, -20, null, true]";
                             member "b" (object [member "c" (Json.quoted "d")])])
  = Some (PDict [ (PStr "a", PList [PInt 1; PInt (-20); PNone; PBool true]);
                  (PStr "b", PDict [(PStr "c", PStr "d")]) ]).
Proof. reflexivity. Qed.

Example loads_repeated_name :
  Json.loads (object [member "a" "1"; member "b" "2"; member "a" "3"])
  = Some (PDict [(PStr "a", PInt 3); (PStr "b", PInt 2)]).
Proof. reflexivity. Qed.

Example loads_rejects :
  map Json.loads ["Sure! {}"; "{} and more"; "[1,]"; "01"; "{1: 2}"; ""]
  = [None; None; None; None; None; None].
Proof. reflexivity. Qed.

(** The example of section 8: a verdict with the four fields embedded in
    prose does not parse as a whole, and the client returns the embedded
    object. *)
Example malformed_json_recovery :
  let body := "Sure! " ++ verdict "true" (Json.quoted "toxicity") "7"
                                  (Json.quoted "x") in
  Json.loads body = None /\
  classify (answering Failed) (Content (PStr body)) =
    PDict [ (PStr "is_offensive", PBool true);
            (PStr "offense_type", PStr "toxicity");
            (PStr "severity", PInt 7);
            (PStr "explanation", PStr "x") ].
Proof. split; reflexivity. Qed.

(** The end-to-end scenario of section 8: with a threshold of 5 the three
    comments get the flags true, true, false; the two comments that the
    filter did not flag went to the endpoint, with one pause each; and the
    report ranks the hate-speech record first. *)
Example end_to_end_scenario :
  exists analyzed_df report counts stats first rest,
    process_comments scenario_env scenario 5 fresh
      = Ok (analyzed_df,
            {| remote_calls := [PStr "second"; PStr "third"]; sleeps := 2 |}) /\
    map (fun r => cell r "is_offensive") (records analyzed_df)
      = [PBool true; PBool true; PBool false] /\
    map (fun r => cell r "severity") (records analyzed_df)
      = [PInt 5; PInt 8; PInt 2] /\
    generate_report sort_ties_reversed analyzed_df = Ok report /\
    total report = 3%nat /\ offensive_found report = 2%nat /\
    details report = Breakdown counts stats (first :: rest) /\
    o_type first = "hate_speech" /\ o_severity first = 8.
Proof.
  do 6 eexists.
  split; [vm_compute; reflexivity|].
  split; [reflexivity|]. split; [reflexivity|].
  split; [vm_compute; reflexivity|].
  repeat split.
Qed.

(** X4.  The empty-offensive boundary: on a record set with at least one
    record and no offensive one, the report returns with an offensive count
    of 0, a ratio of 0 and no detailed section. *)
Theorem no_offensive_report (sort_desc : list Z -> list nat) (df : DataFrame) :
  has_column df "is_offensive" = true ->
  records df <> [] ->
  filter offensive_row (records df) = [] ->
  generate_report sort_desc df =
  Ok {| total := List.length (records df);
        offensive_found := 0;
        ratio := 0 # Pos.of_nat (List.length (records df));
        details := NoOffensive |}.
Proof.
  intros C NE F.
  unfold generate_report, df_getitem. rewrite C. cbn [rbind].
  change (records (df_filter (fun r => py_eq_True (cell r "is_offensive")) df))
    with (filter offensive_row (records df)).
  rewrite F.
  destruct (records df); [contradiction|reflexivity].
Qed.

Lemma no_offensive_report_witness :
  let df := pd_DataFrame [ failed_record (comment 1 "ann" "hello");
                           failed_record (comment 2 "bob" "bye") ] in
  has_column df "is_offensive" = true /\
  records df <> [] /\
  filter offensive_row (records df) = [] /\
  generate_report sort_ties_reversed df =
  Ok {| total := 2; offensive_found := 0; ratio := 0 # 2;
        details := NoOffensive |}.
Proof.
  intros df.
  assert (NE : records df <> []) by discriminate.
  split; [reflexivity|]. split; [exact NE|]. split; [reflexivity|].
  exact (no_offensive_report sort_ties_reversed df eq_refl NE eq_refl).
Defined.

(** Pacing for one comment: whenever the policy returns a record, it has
    made no remote call and taken no pause if the lexical filter flagged the
    comment, and exactly one call, for that comment, followed by one pause
    otherwise. *)
Lemma one_call_one_pause (E : Env) (min_severity : Z) (row : Comment)
    (w w' : World) (r : dict) :
  process_row E min_severity row w = Ok (r, w') ->
  w' = if contains_profanity E (comment_text row) then w
       else after_remote row w.
Proof.
  rewrite process_row_unfold.
  destruct (moderate E row w) as [[pre w0]|] eqn:M; [|discriminate].
  destruct (apply_threshold min_severity pre); [|discriminate].
  intros [= _ <-].
  destruct (contains_profanity E (comment_text row)) eqn:Local.
  - rewrite (moderate_local E row w Local) in M. now injection M.
  - rewrite (moderate_remote E row w Local) in M.
    destruct (if py_truthy _ then _ else _); [|discriminate].
    now injection M.
Qed.

Lemma one_call_one_pause_witness :
  exists r,
    process_row (answering Failed) 1 (comment 1 "ann" "hello") fresh
      = Ok (r, {| remote_calls := [PStr "hello"]; sleeps := 1 |}).
Proof.
  destruct (process_row (answering Failed) 1 (comment 1 "ann" "hello") fresh)
    as [[r w']|] eqn:P; [|vm_compute in P; discriminate].
  exists r. f_equal. f_equal.
  exact (one_call_one_pause (answering Failed) 1 (comment 1 "ann" "hello")
           fresh w' r P).
Defined.

Lemma direct_path_checks_fields_witness :
  let E := answering Failed in
  let body := object [member "is_offensive" "true"; member "severity" "3"] in
  json_loads E body
    = Some (PDict [(PStr "is_offensive", PBool true); (PStr "severity", PInt 3)]) /\
  In "explanation" required_fields /\
  classify E (Content (PStr body)) = PNone.
Proof.
  intros E body.
  assert (I : In "explanation" required_fields) by (simpl; auto).
  split; [reflexivity|]. split; [exact I|].
  exact (direct_path_checks_fields E body
           [(PStr "is_offensive", PBool true); (PStr "severity", PInt 3)]
           "explanation" eq_refl I eq_refl).
Defined.

(* ================================================================== *)
(** * The client beyond the field check *)
(* ================================================================== *)

Section StringFacts.

Lemma str_find_ge c s : -1 <= str_find c s.
Proof.
  induction s as [|a s IH]; simpl; [lia|].
  destruct (Ascii.eqb a c); [lia|].
  destruct (str_find c s =? -1); lia.
Qed.

Lemma str_find_app_here c rest : forall prose,
  str_find c prose = -1 ->
  str_find c (prose ++ String c rest) = Z.of_nat (String.length prose).
Proof.
  induction prose as [|a prose IH]; simpl.
  - intros _. now rewrite Ascii.eqb_refl.
  - destruct (Ascii.eqb a c); [discriminate|].
    pose proof (str_find_ge c prose) as G.
    destruct (Z.eqb_spec (str_find c prose) (-1)) as [A|A]; [|lia].
    intros _. rewrite (IH A).
    destruct (Z.eqb_spec (Z.of_nat (String.length prose)) (-1)); lia.
Qed.

Lemma str_rfind_app_last c tail : forall s,
  str_rfind c tail = -1 ->
  str_rfind c (s ++ String c tail) = Z.of_nat (String.length s).
Proof.
  intros s T. induction s as [|a s IH]; simpl.
  - rewrite T. simpl. now rewrite Ascii.eqb_refl.
  - rewrite IH.
    destruct (Z.eqb_spec (Z.of_nat (String.length s)) (-1)); simpl; lia.
Qed.

Lemma substring_skip n b : forall a,
  String.substring (String.length a) n (a ++ b) = String.substring 0 n b.
Proof. induction a as [|c a IH]; simpl; auto. Qed.

Lemma substring_prefix t : forall b,
  String.substring 0 (String.length b) (b ++ t) = b.
Proof.
  induction b as [|c b IH]; simpl.
  - now destruct t.
  - now rewrite IH.
Qed.

Lemma length_append : forall a b,
  String.length (a ++ b) = (String.length a + String.length b)%nat.
Proof. induction a as [|c a IH]; simpl; intros; [reflexivity|now rewrite IH]. Qed.

Lemma append_assoc : forall a b c : string, (a ++ b) ++ c = a ++ (b ++ c).
Proof. induction a as [|x a IH]; simpl; intros; [reflexivity|now rewrite IH]. Qed.

(** The text between the first opening and the last closing brace of an
    object wrapped in prose is the object. *)
Lemma slice_between_braces prose inner tail :
  str_find "{" prose = -1 -> str_rfind "}" tail = -1 ->
  let body := prose ++ String "{" (inner ++ String "}" tail) in
  str_find "{" body <> -1 /\
  str_rfind "}" body + 1 <> 0 /\
  str_slice body (str_find "{" body) (str_rfind "}" body + 1)
    = String "{" (inner ++ String "}" EmptyString).
Proof.
  intros P T body.
  assert (F : str_find "{" body = Z.of_nat (String.length prose))
    by (apply str_find_app_here; exact P).
  assert (R : str_rfind "}" body
              = Z.of_nat (String.length prose + 1 + String.length inner)).
  { unfold body.
    change (prose ++ String "{" (inner ++ String "}" tail))
      with (prose ++ (String "{" inner ++ String "}" tail)).
    rewrite <- append_assoc, (str_rfind_app_last "}" tail _ T).
    rewrite length_append. simpl. f_equal. lia. }
  rewrite F, R. split; [lia|]. split; [lia|].
  unfold str_slice.
  replace (Z.to_nat (Z.of_nat (String.length prose))) with (String.length prose)
    by lia.
  replace (Z.to_nat (Z.of_nat (String.length prose + 1 + String.length inner)
                     + 1 - Z.of_nat (String.length prose)))
    with (String.length (String "{" (inner ++ String "}" EmptyString)))
    by (simpl; rewrite length_append; simpl; lia).
  unfold body. rewrite substring_skip.
  change (String "{" (inner ++ String "}" tail))
    with (String "{" inner ++ String "}" tail).
  replace (String "{" (inner ++ String "}" EmptyString))
    with ((String "{" inner ++ String "}" EmptyString))
    by reflexivity.
  replace (String "{" inner ++ String "}" tail)
    with ((String "{" inner ++ String "}" EmptyString) ++ tail)
    by (rewrite append_assoc; reflexivity).
  apply substring_prefix.
Qed.

End StringFacts.

(** X1.  Malformed-JSON recovery: when a response body does not parse as a
    whole and consists of an object text [{...}] between a prose prefix
    without an opening brace and a tail without a closing brace, the client
    returns what the object text parses to, and a failure if that does not
    parse either. *)
Theorem brace_fallback_recovers (E : Env) (prose inner tail : string) :
  str_find "{" prose = -1 -> str_rfind "}" tail = -1 ->
  json_loads E (prose ++ String "{" (inner ++ String "}" tail)) = None ->
  classify E (Content (PStr (prose ++ String "{" (inner ++ String "}" tail))))
  = match json_loads E (String "{" (inner ++ String "}" EmptyString)) with
    | Some found => found
    | None => PNone
    end.
Proof.
  intros P T J.
  destruct (slice_between_braces prose inner tail P T) as (F & R & S).
  unfold classify, parse_content, direct_parse, py_json_loads.
  rewrite J. cbn [rbind]. unfold brace_fallback, py_json_loads.
  apply Z.eqb_neq in F, R. rewrite F, R. cbn [negb andb].
  rewrite S.
  destruct (json_loads E (String "{" _)); reflexivity.
Qed.

Lemma brace_fallback_recovers_witness :
  let E := answering Failed in
  let inner := Json.quoted "is_offensive" ++ ": true, "
               ++ Json.quoted "offense_type" ++ ": " ++ Json.quoted "toxicity"
               ++ ", " ++ Json.quoted "severity" ++ ": 7, "
               ++ Json.quoted "explanation" ++ ": " ++ Json.quoted "x" in
  str_find "{" "Sure! " = -1 /\ str_rfind "}" " Hope it helps." = -1 /\
  json_loads E ("Sure! " ++ String "{" (inner ++ String "}" " Hope it helps."))
    = None /\
  classify E (Content (PStr
    ("Sure! " ++ String "{" (inner ++ String "}" " Hope it helps."))))
  = PDict [ (PStr "is_offensive", PBool true);
            (PStr "offense_type", PStr "toxicity");
            (PStr "severity", PInt 7);
            (PStr "explanation", PStr "x") ].
Proof.
  intros E inner.
  split; [reflexivity|]. split; [reflexivity|]. split; [reflexivity|].
  exact (brace_fallback_recovers E "Sure! " inner " Hope it helps."
           eq_refl eq_refl eq_refl).
Defined.

(** X2.  What the client turns into a failure besides a failed exchange: a
    content that is no text, a body that parses to a scalar (the field test
    on it raises [TypeError]), and a body that does not parse and lacks an
    opening or a closing brace. *)
Theorem client_failures (E : Env) (content : pyval) :
  (forall s, content <> PStr s) \/
  (exists s v, content = PStr s /\ json_loads E s = Some v /\
               is_scalar v = true) \/
  (exists s, content = PStr s /\ json_loads E s = None /\
             (str_find "{" s = -1 \/ str_rfind "}" s = -1)) ->
  classify E (Content content) = PNone.
Proof.
  intros [N|[(s & v & -> & J & S)|(s & -> & J & B)]].
  - destruct content; try reflexivity. now destruct (N s).
  - unfold classify, parse_content, direct_parse, py_json_loads.
    rewrite J. cbn [rbind]. destruct v; try discriminate; reflexivity.
  - unfold classify, parse_content, direct_parse, py_json_loads.
    rewrite J. cbn [rbind]. unfold brace_fallback.
    destruct B as [B|B]; rewrite B.
    + reflexivity.
    + simpl. now rewrite andb_false_r.
Qed.

Lemma client_failures_witness :
  json_loads (answering Failed) "42" = Some (PInt 42) /\
  is_scalar (PInt 42) = true /\
  classify (answering Failed) (Content (PStr "42")) = PNone.
Proof.
  split; [reflexivity|]. split; [reflexivity|].
  apply client_failures. right; left.
  exists "42", (PInt 42). repeat split.
Defined.

(* ================================================================== *)
(** * The batch: what it sends, how it fails, what it returns *)
(* ================================================================== *)

Section BatchAccounting.

Variable E : Env.
Variable min_severity : Z.

Lemma process_rows_world : forall rows results w out w',
  process_rows E min_severity rows results w = Ok (out, w') ->
  remote_calls w' = (remote_calls w ++ map comment_text (unflagged E rows))%list /\
  sleeps w' = (sleeps w + List.length (unflagged E rows))%nat.
Proof.
  induction rows as [|row rows IH]; intros results w out w' R; simpl in R.
  - injection R as _ <-. simpl. now rewrite app_nil_r, Nat.add_0_r.
  - unfold bind in R.
    destruct (process_row E min_severity row w) as [[r w1]|] eqn:P;
      [|discriminate].
    apply one_call_one_pause in P. apply IH in R as [C S].
    unfold unflagged in *. simpl.
    destruct (contains_profanity E (comment_text row)); simpl; subst w1.
    + split; assumption.
    + simpl in C, S. rewrite C, S, <- app_assoc. split; [reflexivity|lia].
Qed.

End BatchAccounting.

(** X5.  What a batch costs: whenever [process_comments] returns, the
    comments it sent to the endpoint are exactly the input comments that the
    lexical filter did not flag, each once and in input order, and it took
    one pause for each of them. *)
Theorem batch_remote_calls (E : Env) (min_severity : Z) (df : list Comment)
    (w w' : World) (analyzed_df : DataFrame) :
  process_comments E df min_severity w = Ok (analyzed_df, w') ->
  remote_calls w' = (remote_calls w ++ map comment_text (unflagged E df))%list /\
  sleeps w' = (sleeps w + List.length (unflagged E df))%nat.
Proof.
  unfold process_comments, bind, ret. intros P.
  destruct (process_rows E min_severity df [] w) as [[rs w1]|] eqn:R;
    [|discriminate].
  injection P as _ <-. exact (process_rows_world E min_severity _ _ _ _ _ R).
Qed.

Lemma batch_remote_calls_witness :
  exists analyzed_df w',
    process_comments scenario_env scenario 5 fresh = Ok (analyzed_df, w') /\
    remote_calls w' = [PStr "second"; PStr "third"] /\
    sleeps w' = 2%nat.
Proof.
  destruct (process_comments scenario_env scenario 5 fresh)
    as [[analyzed_df w']|] eqn:P; [|vm_compute in P; discriminate].
  exists analyzed_df, w'. split; [reflexivity|].
  exact (batch_remote_calls scenario_env 5 scenario fresh w' analyzed_df P).
Defined.

Section DefinedFields.

Lemma lacks_set d k v s :
  lacks (dict_set d k v) s = lacks d s && negb (key_eqb k (PStr s)).
Proof.
  unfold lacks. induction d as [|[k' v'] d IH]; simpl.
  - now rewrite andb_true_r.
  - destruct (key_eqb k' k) eqn:K; simpl.
    + destruct (key_eqb k (PStr s)) eqn:Ks; simpl.
      * apply key_eqb_str_r in Ks. subst k. rewrite K. reflexivity.
      * now rewrite andb_true_r.
    + rewrite IH. now rewrite andb_assoc.
Qed.

Lemma lacks_set_false d k v s :
  lacks d s = false -> lacks (dict_set d k v) s = false.
Proof. intros L. now rewrite lacks_set, L. Qed.

Lemma lacks_merge other : forall d s,
  lacks d s = false -> lacks (dict_merge d other) s = false.
Proof.
  unfold dict_merge.
  induction other as [|[k v] other IH]; intros d s L; simpl; [exact L|].
  apply IH. now apply lacks_set_false.
Qed.

Lemma lacks_merge_seq items : forall d r s,
  dict_merge_seq d items = Ok r -> lacks d s = false -> lacks r s = false.
Proof.
  induction items as [|item items IH]; intros d r s M L; simpl in M.
  - now injection M as <-.
  - destruct (as_sequence item) as [[|k [|v [|]]]|]; try discriminate.
    destruct (hashable k); [|discriminate].
    apply (IH _ _ _ M). now apply lacks_set_false.
Qed.

Lemma lacks_update d v r s :
  dict_update d v = Ok r -> lacks d s = false -> lacks r s = false.
Proof.
  destruct v; simpl; try discriminate.
  - apply lacks_merge_seq.
  - apply lacks_merge_seq.
  - intros [= <-]. apply lacks_merge.
Qed.

Lemma defines_preserved (d r : dict) names :
  (forall s, lacks d s = false -> lacks r s = false) ->
  defines d names = true -> defines r names = true.
Proof.
  intros H. unfold defines. rewrite !forallb_forall.
  intros D s I. specialize (D s I).
  apply negb_true_iff in D. apply negb_true_iff. auto.
Qed.

Lemma field_defined d s :
  lacks d s = false -> exists v, field d s = Some v.
Proof.
  unfold lacks, field. induction d as [|[k v] d IH]; simpl; [discriminate|].
  destruct (key_eqb k (PStr s)); simpl; eauto.
Qed.

Lemma dict_merge_seq_raises items : forall d,
  raises_only type_or_value (dict_merge_seq d items).
Proof.
  induction items as [|item items IH]; intros d e; simpl; [discriminate|].
  destruct (as_sequence item) as [[|k [|v [|]]]|];
    try (intros [= <-]; reflexivity).
  destruct (hashable k); [apply IH|intros [= <-]; reflexivity].
Qed.

Lemma dict_update_raises d v : raises_only type_or_value (dict_update d v).
Proof.
  destruct v; simpl; try (intros e [= <-]; reflexivity);
    apply dict_merge_seq_raises.
Qed.

End DefinedFields.

Section BatchFailures.

Variable E : Env.
Variable min_severity : Z.

Lemma moderate_defines row w pre w' :
  moderate E row w = Ok (pre, w') -> defines pre record_fields = true.
Proof.
  destruct (contains_profanity E (comment_text row)) eqn:Local.
  - rewrite (moderate_local E row w Local). now intros [= <- _].
  - rewrite (moderate_remote E row w Local).
    destruct (py_truthy (outcome E row w)).
    + destruct (dict_update (initial_record row) (outcome E row w))
        as [r|] eqn:U; [|discriminate].
      intros [= <- _].
      apply (defines_preserved (initial_record row)); [|reflexivity].
      intros s. now apply lacks_update with (v := outcome E row w).
    + now intros [= <- _].
Qed.

Lemma moderate_raises row w :
  raises_only type_or_value (moderate E row w).
Proof.
  intros e.
  destruct (contains_profanity E (comment_text row)) eqn:Local.
  - now rewrite (moderate_local E row w Local).
  - rewrite (moderate_remote E row w Local).
    destruct (py_truthy (outcome E row w)); [|discriminate].
    pose proof (dict_update_raises (initial_record row) (outcome E row w)) as U.
    destruct (dict_update _ _); [discriminate|].
    intros [= <-]. now apply U.
Qed.

Lemma apply_threshold_defined r :
  defines r record_fields = true ->
  raises_only type_or_value (apply_threshold min_severity r) /\
  forall r', apply_threshold min_severity r = Ok r' ->
             defines r' record_fields = true.
Proof.
  intros D.
  assert (S : lacks r "severity" = false).
  { unfold defines in D. rewrite forallb_forall in D.
    apply negb_true_iff, D. simpl. auto 10. }
  destruct (field_defined r "severity" S) as [v Fv].
  unfold apply_threshold, dict_getitem, py_lt_int. unfold field in Fv.
  rewrite Fv. cbn [rbind].
  destruct (as_num v); cbn [rbind].
  - split; [intros e; discriminate|]. intros r' [= <-].
    destruct (num_ltb n (Fin min_severity 0)); [|exact D].
    apply (defines_preserved r); [|exact D].
    intros s. apply lacks_set_false.
  - split; [intros e [= <-]; reflexivity|discriminate].
Qed.

Lemma process_row_defined row w :
  raises_only type_or_value (process_row E min_severity row w) /\
  forall r w', process_row E min_severity row w = Ok (r, w') ->
               defines r record_fields = true.
Proof.
  rewrite process_row_unfold.
  pose proof (moderate_raises row w) as MR.
  destruct (moderate E row w) as [[pre w0]|e0] eqn:M.
  - destruct (apply_threshold_defined pre (moderate_defines row w pre w0 M))
      as [GR GD].
    destruct (apply_threshold min_severity pre) as [r0|e1].
    + split; [intros e; discriminate|]. intros r w' [= <- _]. now apply GD.
    + split; [|discriminate]. intros e [= <-]. now apply GR.
  - split; [|discriminate]. intros e [= <-]. now apply MR.
Qed.

Lemma process_rows_defined : forall rows results w,
  Forall (fun r => defines r record_fields = true) results ->
  raises_only type_or_value (process_rows E min_severity rows results w) /\
  forall out w', process_rows E min_severity rows results w = Ok (out, w') ->
                 Forall (fun r => defines r record_fields = true) out.
Proof.
  induction rows as [|row rows IH]; intros results w F; simpl.
  - split; [intros e; discriminate|]. now intros out w' [= <- _].
  - unfold bind.
    destruct (process_row_defined row w) as [PR PD].
    destruct (process_row E min_severity row w) as [[r w1]|e0].
    + apply IH. apply Forall_app. split; [exact F|].
      constructor; [now apply (PD r w1)|constructor].
    + split; [|discriminate]. intros e [= <-]. now apply PR.
Qed.

End BatchFailures.



Section FrameColumns.

Lemma add_column_has cols k c :
  existsb (fun c0 => key_eqb c0 (PStr c)) (add_column cols k)
  = existsb (fun c0 => key_eqb c0 (PStr c)) cols || key_eqb k (PStr c).
Proof.
  unfold add_column.
  destruct (existsb (fun c0 => key_eqb c0 k) cols) eqn:X.
  - destruct (key_eqb k (PStr c)) eqn:K; [|now rewrite orb_false_r].
    apply key_eqb_str_r in K. subst k. rewrite X. reflexivity.
  - rewrite existsb_app. simpl. now rewrite orb_false_r.
Qed.

Lemma add_columns_has keys c : forall cols,
  existsb (fun c0 => key_eqb c0 (PStr c)) (fold_left add_column keys cols)
  = existsb (fun c0 => key_eqb c0 (PStr c)) cols
    || existsb (fun k => key_eqb k (PStr c)) keys.
Proof.
  induction keys as [|k keys IH]; intros cols; simpl.
  - now rewrite orb_false_r.
  - rewrite IH, add_column_has. now rewrite orb_assoc.
Qed.

(** A frame built from dictionaries has a column exactly when one of them
    has the key. *)
Lemma has_column_pd_DataFrame results c :
  has_column (pd_DataFrame results) c
  = existsb (fun r => negb (lacks r c)) results.
Proof.
  unfold has_column, pd_DataFrame. simpl.
  assert (G : forall cols,
    existsb (fun c0 => key_eqb c0 (PStr c))
      (fold_left (fun cols r => fold_left add_column (dict_keys r) cols)
                 results cols)
    = existsb (fun c0 => key_eqb c0 (PStr c)) cols
      || existsb (fun r => negb (lacks r c)) results).
  { induction results as [|r results IH]; intros cols; simpl.
    - now rewrite orb_false_r.
    - rewrite IH, add_columns_has, has_key_lacks. now rewrite orb_assoc. }
  now rewrite G.
Qed.

End FrameColumns.

Section ReportFailures.

Variable sort_desc : list Z -> list nat.

Lemma raises_only_rbind {A B} allowed (c : res A) (k : A -> res B) :
  raises_only allowed c -> (forall a, raises_only allowed (k a)) ->
  raises_only allowed (rbind c k).
Proof.
  intros Hc Hk e. destruct c as [a|e0]; simpl.
  - apply Hk.
  - intros [= <-]. now apply Hc.
Qed.

Lemma raises_only_map_res {A B} allowed (f : A -> res B) l :
  (forall a, raises_only allowed (f a)) -> raises_only allowed (map_res f l).
Proof.
  intros Hf. induction l as [|a l IH]; simpl; [intros e; discriminate|].
  apply raises_only_rbind; [apply Hf|]. intros b.
  apply raises_only_rbind; [exact IH|]. intros bs e. discriminate.
Qed.

Lemma title_raises v : raises_only type_or_attribute (title v).
Proof. destruct v; intros e [= <-]; reflexivity. Qed.

Lemma value_counts_raises cells :
  raises_only type_or_attribute (value_counts sort_desc cells).
Proof.
  unfold value_counts. destruct (forallb hashable cells); intros e [= <-].
  reflexivity.
Qed.

(** With the columns that the report reads and at least one row, the report
    can fail on an offense type only: one that cannot be counted
    ([TypeError]) or that has no [title] ([AttributeError]). *)
Lemma generate_report_raises df :
  forallb (has_column df) report_columns = true -> records df <> [] ->
  raises_only type_or_attribute (generate_report sort_desc df).
Proof.
  intros Cols NE. simpl in Cols.
  repeat (apply andb_prop in Cols as [? Cols]).
  unfold generate_report, df_getitem.
  replace (has_column df "is_offensive") with true by auto. cbn [rbind].
  destruct (records df) as [|r0 rs] eqn:Rec; [contradiction|].
  cbn [py_truediv List.length rbind].
  set (offensive := df_filter _ df).
  assert (HC : forall c, has_column offensive c = has_column df c)
    by reflexivity.
  apply raises_only_rbind; [|intros ? ?; discriminate].
  destruct (records offensive); [intros e; discriminate|].
  unfold breakdown, df_getitem. rewrite !HC.
  replace (has_column df "offense_type") with true by auto.
  replace (has_column df "severity") with true by auto.
  cbn [rbind].
  apply raises_only_rbind; [apply value_counts_raises|intros counts].
  apply raises_only_rbind.
  { apply raises_only_map_res. intros oc.
    apply raises_only_rbind; [apply title_raises|intros ? ?; discriminate]. }
  intros labelled.
  destruct (int64_cells _); [|intros e; discriminate].
  destruct (int64_cells _); [|intros e; discriminate].
  apply raises_only_rbind; [|intros ? ?; discriminate].
  unfold top_five. apply raises_only_map_res. intros [r s].
  unfold offender, row_getitem. rewrite !HC.
  replace (has_column df "username") with true by auto.
  replace (has_column df "comment_text") with true by auto.
  replace (has_column df "offense_type") with true by auto.
  replace (has_column df "explanation") with true by auto.
  cbn [rbind fst snd].
  apply raises_only_rbind; [apply title_raises|intros ? ?; discriminate].
Qed.

End ReportFailures.



(* ================================================================== *)
(** * The threshold applied twice *)
(* ================================================================== *)

Section GateFacts.

Lemma num_ltb_max n m1 m2 :
  num_ltb n (Fin (Z.max m1 m2) 0)
  = num_ltb n (Fin m1 0) || num_ltb n (Fin m2 0).
Proof.
  destruct n as [m e|[|]|]; simpl; auto.
  unfold align.
  set (p := 2 ^ (0 - Z.min e 0)).
  assert (0 < p) by (apply Z.pow_pos_nonneg; lia).
  set (x := m * 2 ^ (e - Z.min e 0)).
  destruct (Z.ltb_spec x (m1 * p)), (Z.ltb_spec x (m2 * p)),
           (Z.ltb_spec x (Z.max m1 m2 * p)); simpl; auto;
    destruct (Z.max_spec m1 m2) as [[? ->]|[? ->]]; nia.
Qed.

Lemma dict_set_twice d s v :
  dict_set (dict_set d (PStr s) v) (PStr s) v = dict_set d (PStr s) v.
Proof.
  induction d as [|[k' v'] d IH]; simpl.
  - now rewrite String.eqb_refl.
  - destruct (key_eqb k' (PStr s)) eqn:K; simpl; rewrite K; [reflexivity|].
    now rewrite IH.
Qed.

End GateFacts.

(** X8.  The threshold gate composes: applying it with [m1] and then with
    [m2] is applying it once with the larger of the two, exceptions
    included.  So the gate is idempotent, and a lower threshold applied to
    gated records does not bring back a flag that a higher one
    suppressed. *)
Theorem gate_composes (m1 m2 : Z) (result : dict) :
  rbind (apply_threshold m1 result) (apply_threshold m2)
  = apply_threshold (Z.max m1 m2) result.
Proof.
  unfold apply_threshold at 1 3. unfold dict_getitem, py_lt_int.
  destruct (dict_get result (PStr "severity")) as [v|] eqn:S; cbn [rbind];
    [|reflexivity].
  destruct (as_num v) as [n|] eqn:N; cbn [rbind]; [|reflexivity].
  rewrite num_ltb_max.
  assert (G : forall r, field r "severity" = Some v ->
                apply_threshold m2 r
                = Ok (if num_ltb n (Fin m2 0)
                      then dict_set r (PStr "is_offensive") (PBool false)
                      else r)).
  { intros r F. unfold apply_threshold, dict_getitem, py_lt_int.
    unfold field in F. rewrite F. cbn [rbind]. now rewrite N. }
  destruct (num_ltb n (Fin m1 0)); simpl.
  - rewrite G by (rewrite field_set_other_str; [exact S|discriminate]).
    destruct (num_ltb n (Fin m2 0)); [|reflexivity].
    now rewrite dict_set_twice.
  - now rewrite G by exact S.
Qed.

(* ================================================================== *)
(** * The figures of the report *)
(* ================================================================== *)

Section ReportShape.

Variable sort_desc : list Z -> list nat.

Lemma breakdown_not_NoOffensive df offensive detail :
  breakdown sort_desc df offensive = Ok detail -> detail <> NoOffensive.
Proof.
  unfold breakdown. intros B.
  apply rbind_Ok in B as (kinds & _ & B).
  apply rbind_Ok in B as (counts & _ & B).
  apply rbind_Ok in B as (labelled & _ & B).
  apply rbind_Ok in B as (a & _ & B).
  apply rbind_Ok in B as (b & _ & B).
  destruct (int64_cells a); [|injection B as <-; discriminate].
  destruct (int64_cells b); [|injection B as <-; discriminate].
  apply rbind_Ok in B as (top & _ & B). injection B as <-. discriminate.
Qed.

Lemma py_truediv_Ok a b q :
  py_truediv a b = Ok q -> b <> 0%nat /\ q = (Z.of_nat a # Pos.of_nat b).
Proof.
  unfold py_truediv. destruct b; [discriminate|].
  intros [= <-]. split; [discriminate|reflexivity].
Qed.

(** What a returned report says of the frame it was given. *)
Lemma generate_report_inv df report :
  generate_report sort_desc df = Ok report ->
  records df <> [] /\
  total report = List.length (records df) /\
  offensive_found report
    = List.length (filter offensive_row (records df)) /\
  ratio report = (Z.of_nat (offensive_found report)
                  # Pos.of_nat (total report)) /\
  match filter offensive_row (records df) with
  | [] => details report = NoOffensive
  | _ :: _ =>
      breakdown sort_desc df (df_filter offensive_row df) = Ok (details report)
  end.
Proof.
  intros G. unfold generate_report in G.
  apply rbind_Ok in G as (flags & _ & G).
  apply rbind_Ok in G as (share & D & G).
  apply rbind_Ok in G as (detail & B & G).
  injection G as <-. cbn [total offensive_found ratio details].
  apply py_truediv_Ok in D as [NZ ->].
  change (df_filter (fun r => py_eq_True (cell r "is_offensive")) df)
    with (df_filter offensive_row df) in *.
  change (records (df_filter offensive_row df))
    with (filter offensive_row (records df)) in *.
  split; [|split; [reflexivity|split; [reflexivity|split; [reflexivity|]]]].
  - intros Z. rewrite Z in NZ. now apply NZ.
  - destruct (filter offensive_row (records df));
      [now injection B as <-|exact B].
Qed.

End ReportShape.

(** X9.  The head of a returned report: the record set has at least one
    record, [total] is their number, [offensive_found] is the number of
    records whose flag equals [True] and is at most [total], the ratio is
    their quotient and lies between 0 and 1, and the detailed section is
    left out exactly when no record is offensive. *)
Theorem report_totals (sort_desc : list Z -> list nat) (df : DataFrame)
    (report : Report) :
  generate_report sort_desc df = Ok report ->
  (0 < total report)%nat /\
  total report = List.length (records df) /\
  offensive_found report = List.length (filter offensive_row (records df)) /\
  (offensive_found report <= total report)%nat /\
  ratio report = (Z.of_nat (offensive_found report)
                  # Pos.of_nat (total report)) /\
  (0 <= ratio report)%Q /\ (ratio report <= 1)%Q /\
  (details report = NoOffensive <-> offensive_found report = 0%nat).
Proof.
  intros G.
  destruct (generate_report_inv sort_desc df report G)
    as (NE & T & F & R & D).
  assert (Pos : (0 < total report)%nat).
  { rewrite T. destruct (records df); [contradiction|simpl; lia]. }
  assert (Le : (offensive_found report <= total report)%nat).
  { rewrite T, F. apply filter_length_le. }
  split; [exact Pos|]. split; [exact T|]. split; [exact F|].
  split; [exact Le|]. split; [exact R|].
  split; [|split].
  - rewrite R. unfold Qle. simpl. lia.
  - rewrite R. unfold Qle. simpl.
    rewrite <- (positive_nat_Z (Pos.of_nat (total report))).
    rewrite Nat2Pos.id by lia. lia.
  - destruct (filter offensive_row (records df)) as [|o os] eqn:O.
    + rewrite F. simpl. now split.
    + rewrite F. simpl. split; [|discriminate].
      intros N. apply breakdown_not_NoOffensive in D. contradiction.
Qed.

Lemma report_totals_witness :
  exists analyzed_df w' report,
    process_comments scenario_env scenario 5 fresh = Ok (analyzed_df, w') /\
    generate_report sort_ties_reversed analyzed_df = Ok report /\
    total report = 3%nat /\ offensive_found report = 2%nat /\
    ratio report = (2 # 3).
Proof.
  destruct (process_comments scenario_env scenario 5 fresh)
    as [[analyzed_df w']|] eqn:P; [|vm_compute in P; discriminate].
  destruct (generate_report sort_ties_reversed analyzed_df)
    as [report|] eqn:G;
    [|vm_compute in P; injection P as <- _; vm_compute in G; discriminate].
  destruct (report_totals sort_ties_reversed analyzed_df report G)
    as (_ & T & F & _ & R & _).
  exists analyzed_df, w', report.
  split; [reflexivity|]. split; [exact G|].
  vm_compute in P. injection P as <- _.
  rewrite R, T, F. repeat split.
Defined.

Section BreakdownFacts.

Variable sort_desc : list Z -> list nat.

(** What a returned breakdown was computed from. *)
Lemma breakdown_inv df offensive labelled stats top :
  breakdown sort_desc df offensive = Ok (Breakdown labelled stats top) ->
  exists counts xs,
    value_counts sort_desc
      (map (fun r => cell r "offense_type") (records offensive)) = Ok counts /\
    Forall2 (fun oc ln => fst oc = PStr (fst ln) /\ snd oc = snd ln)
            counts labelled /\
    map (fun r => cell r "severity") (records offensive) = map PInt xs /\
    stats = describe xs /\
    top_five sort_desc offensive xs = Ok top.
Proof.
  unfold breakdown, df_getitem. intros B.
  apply rbind_Ok in B as (kinds & K & B).
  apply rbind_Ok in B as (counts & C & B).
  apply rbind_Ok in B as (labelled' & L & B).
  apply rbind_Ok in B as (a & _ & B).
  apply rbind_Ok in B as (b & S & B).
  destruct (int64_cells a); [|discriminate].
  destruct (int64_cells b) as [xs|] eqn:I; [|discriminate].
  apply rbind_Ok in B as (top' & T & B). injection B as -> <- ->.
  destruct (has_column offensive "offense_type"); [|discriminate].
  destruct (has_column offensive "severity"); [|discriminate].
  injection K as <-. injection S as <-.
  exists counts, xs. split; [exact C|]. split; [|split; [|split]].
  - apply map_res_Forall2 in L.
    eapply Forall2_impl; [|exact L].
    intros [k n] [label m]. simpl. intros H.
    apply rbind_Ok in H as (lbl & Ht & H). injection H as <- <-.
    destruct k; try discriminate. now injection Ht as <-.
  - now apply int64_cells_Some.
  - reflexivity.
  - exact T.
Qed.

End BreakdownFacts.

Section TallyFacts.

Lemma key_eqb_refl v : hashable v = true -> key_eqb v v = true.
Proof.
  destruct v as [| |z|f|s| |]; simpl; try discriminate; intros _; auto.
  - unfold align. apply Z.eqb_refl.
  - unfold align. apply Z.eqb_refl.
  - destruct f as [s|s| |s m e]; simpl; auto.
    + apply Bool.eqb_reflx.
    + unfold align. apply Z.eqb_refl.
  - apply String.eqb_refl.
Qed.

Lemma tally_sum v : forall counts,
  sum_counts (tally counts v) = S (sum_counts counts).
Proof.
  unfold sum_counts.
  induction counts as [|[k n] counts IH]; simpl; [reflexivity|].
  destruct (key_eqb k v); simpl; [reflexivity|]. rewrite IH. lia.
Qed.

Lemma tally_positive v : forall counts,
  Forall (fun kn : pyval * nat => (0 < snd kn)%nat) counts ->
  Forall (fun kn : pyval * nat => (0 < snd kn)%nat) (tally counts v).
Proof.
  induction 1 as [|[k n] counts Hk Hc IH]; simpl.
  - repeat constructor.
  - destruct (key_eqb k v); constructor; simpl in *; auto; lia.
Qed.

Lemma tally_keeps v v' : forall counts,
  (exists kn, In kn counts /\ key_eqb (fst kn) v' = true) ->
  exists kn, In kn (tally counts v) /\ key_eqb (fst kn) v' = true.
Proof.
  induction counts as [|[k n] counts IH]; intros (kn & I & K).
  - destruct I.
  - simpl. destruct I as [<-|I].
    + destruct (key_eqb k v); eexists; (split; [left; reflexivity|exact K]).
    + destruct (IH (ex_intro _ kn (conj I K))) as (kn' & I' & K').
      destruct (key_eqb k v).
      * exists kn. split; [now right|exact K].
      * exists kn'. split; [now right|exact K'].
Qed.

Lemma tally_adds v : hashable v = true -> forall counts,
  exists kn, In kn (tally counts v) /\ key_eqb (fst kn) v = true.
Proof.
  intros H. induction counts as [|[k n] counts (kn & I & K)]; simpl.
  - exists (v, 1%nat). split; [now left|now apply key_eqb_refl].
  - destruct (key_eqb k v) eqn:X.
    + exists (k, S n). split; [now left|exact X].
    + exists kn. split; [now right|exact K].
Qed.

(** Counting the cells: the counts add up to the number of cells, each is
    positive, and every cell is counted under a key equal to it. *)
Lemma fold_tally cells : forall acc,
  Forall (fun v => hashable v = true) cells ->
  Forall (fun kn : pyval * nat => (0 < snd kn)%nat) acc ->
  sum_counts (fold_left tally cells acc)
    = (sum_counts acc + List.length cells)%nat /\
  Forall (fun kn : pyval * nat => (0 < snd kn)%nat) (fold_left tally cells acc) /\
  Forall (fun v => exists kn, In kn (fold_left tally cells acc) /\
                              key_eqb (fst kn) v = true) cells.
Proof.
  induction cells as [|v cells IH]; intros acc H P; simpl.
  - split; [lia|]. split; [exact P|constructor].
  - inversion H as [|? ? Hv Hc]; subst.
    destruct (IH (tally acc v) Hc (tally_positive v acc P)) as (S & Q & C).
    split; [rewrite S, tally_sum; lia|]. split; [exact Q|].
    constructor; [|exact C].
    assert (G : forall cs acc',
      (exists kn, In kn acc' /\ key_eqb (fst kn) v = true) ->
      exists kn, In kn (fold_left tally cs acc') /\ key_eqb (fst kn) v = true).
    { induction cs as [|c cs IHc]; intros acc' X; simpl; [exact X|].
      apply IHc. now apply tally_keeps. }
    apply G. now apply tally_adds.
Qed.

Lemma sum_counts_Permutation {A} (l l' : list (A * nat)) :
  Permutation l l' -> sum_counts l = sum_counts l'.
Proof.
  unfold sum_counts. induction 1; simpl; lia.
Qed.

End TallyFacts.

Section DistinctKeys.

Lemma tally_keys v : forall counts,
  map fst (tally counts v) = map fst counts \/
  (map fst (tally counts v) = (map fst counts ++ [v])%list /\
   Forall (fun k => key_eqb k v = false) (map fst counts)).
Proof.
  induction counts as [|[k n] counts IH]; simpl.
  - right. split; [reflexivity|constructor].
  - destruct (key_eqb k v) eqn:K; simpl; [now left|].
    destruct IH as [->|[-> F]]; [now left|right].
    split; [reflexivity|now constructor].
Qed.

Lemma tally_NoDup v counts :
  hashable v = true ->
  NoDup (map fst counts) -> NoDup (map fst (tally counts v)).
Proof.
  intros H N. destruct (tally_keys v counts) as [->|[-> F]]; [exact N|].
  apply NoDup_app; [exact N|repeat constructor; intros []|].
  intros k I [J|[]].
  rewrite Forall_forall in F. specialize (F k I). subst k.
  rewrite key_eqb_refl in F by exact H. discriminate.
Qed.

Lemma fold_tally_NoDup cells : forall acc,
  Forall (fun v => hashable v = true) cells ->
  NoDup (map fst acc) -> NoDup (map fst (fold_left tally cells acc)).
Proof.
  induction cells as [|v cells IH]; intros acc H N; simpl; [exact N|].
  inversion H; subst. apply IH; [assumption|now apply tally_NoDup].
Qed.

End DistinctKeys.

Section CountsOfAReport.

Variable sort_desc : list Z -> list nat.
Hypothesis contract : sorts_descending sort_desc.

(** [value_counts()] under the contract of the sorting routine. *)
Lemma value_counts_inv cells counts :
  value_counts sort_desc cells = Ok counts ->
  sum_counts counts
    = List.length (filter (fun v => negb (is_null v)) cells) /\
  Forall (fun kn : pyval * nat => (0 < snd kn)%nat) counts /\
  NoDup (map fst counts) /\
  Forall (fun v => exists kn, In kn counts /\ key_eqb (fst kn) v = true)
         (filter (fun v => negb (is_null v)) cells).
Proof.
  unfold value_counts. destruct (forallb hashable cells) eqn:H; [|discriminate].
  cbv zeta. intros V. injection V as <-.
  set (counted := filter (fun v => negb (is_null v)) cells).
  assert (Hc : Forall (fun v => hashable v = true) counted).
  { apply Forall_forall. intros v I. apply filter_In in I as [I _].
    rewrite forallb_forall in H. now apply H. }
  set (table := fold_left tally counted []).
  destruct (fold_tally counted [] Hc (Forall_nil _)) as (S & P & C).
  fold table in S, P, C.
  assert (N : NoDup (map fst table))
    by (apply fold_tally_NoDup; [exact Hc|constructor]).
  assert (T : Permutation
                (take table (sort_desc (map (fun kv => Z.of_nat (snd kv)) table)))
                table).
  { apply take_Permutation.
    destruct (contract (map (fun kv => Z.of_nat (snd kv)) table)) as [Q _].
    now rewrite length_map in Q. }
  split; [|split; [|split]].
  - rewrite (sum_counts_Permutation _ _ T). exact S.
  - eapply Permutation_Forall; [symmetry; exact T|exact P].
  - eapply Permutation_NoDup; [|exact N].
    apply Permutation_map. now symmetry.
  - eapply Forall_impl; [|exact C].
    intros v (kn & I & K). exists kn. split; [|exact K].
    eapply Permutation_in; [symmetry; exact T|exact I].
Qed.

End CountsOfAReport.

Section Labels.

Lemma labelled_counts (counts : list (pyval * nat)) labelled :
  Forall2 (fun oc ln => fst oc = PStr (fst ln) /\ snd oc = snd ln)
          counts labelled ->
  map snd counts = map snd labelled /\
  map fst counts = map PStr (map fst labelled) /\
  forall kn, In kn counts ->
             exists label, fst kn = PStr label /\ In (label, snd kn) labelled.
Proof.
  induction 1 as [|[k n] [label m] counts labelled [Hk Hn] F (S & K & I)];
    simpl in *.
  - repeat split; intros kn [].
  - subst. split; [now rewrite S|]. split; [now rewrite K|].
    intros kn [<-|J].
    + exists label. split; [reflexivity|now left].
    + destruct (I kn J) as (l & ? & ?). exists l. split; [assumption|now right].
Qed.

Lemma filter_of_map {A B} (f : A -> B) (p : B -> bool) : forall l,
  filter p (map f l) = map f (filter (fun a => p (f a)) l).
Proof.
  induction l as [|a l IH]; simpl; [reflexivity|].
  destruct (p (f a)); simpl; now rewrite IH.
Qed.

End Labels.



Section StatsFacts.

Lemma fold_max_bounds d : forall xs,
  d <= fold_right Z.max d xs /\
  Forall (fun x => x <= fold_right Z.max d xs) xs /\
  In (fold_right Z.max d xs) (d :: xs).
Proof.
  induction xs as [|x xs (D & F & I)]; simpl.
  - split; [lia|]. split; [constructor|now left].
  - split; [lia|]. split.
    + constructor; [lia|]. eapply Forall_impl; [|exact F].
      intros a Ha. simpl in Ha. lia.
    + destruct (Z.max_spec x (fold_right Z.max d xs)) as [[_ ->]|[_ ->]].
      * destruct I as [I|I]; [now left|now right; right].
      * now right; left.
Qed.

Lemma fold_min_bounds d : forall xs,
  fold_right Z.min d xs <= d /\
  Forall (fun x => fold_right Z.min d xs <= x) xs /\
  In (fold_right Z.min d xs) (d :: xs).
Proof.
  induction xs as [|x xs (D & F & I)]; simpl.
  - split; [lia|]. split; [constructor|now left].
  - split; [lia|]. split.
    + constructor; [lia|]. eapply Forall_impl; [|exact F].
      intros a Ha. simpl in Ha. lia.
    + destruct (Z.min_spec x (fold_right Z.min d xs)) as [[_ ->]|[_ ->]].
      * now right; left.
      * destruct I as [I|I]; [now left|now right; right].
Qed.

(** The extremes of [describe()] are cells of the column and bound it. *)
Lemma describe_bounds x xs :
  Forall (fun y => minimum (describe (x :: xs)) <= y
                   <= maximum (describe (x :: xs))) (x :: xs) /\
  In (maximum (describe (x :: xs))) (x :: xs) /\
  In (minimum (describe (x :: xs))) (x :: xs).
Proof.
  unfold describe. cbn [maximum minimum hd].
  destruct (fold_max_bounds x (x :: xs)) as (_ & M & Mi).
  destruct (fold_min_bounds x (x :: xs)) as (_ & N & Ni).
  split; [|split].
  - rewrite Forall_forall in *. intros y I.
    specialize (M y I). specialize (N y I). cbv beta in M, N. lia.
  - destruct Mi as [<-|Mi]; [now left|exact Mi].
  - destruct Ni as [<-|Ni]; [now left|exact Ni].
Qed.

Lemma sum_bounds lo hi : forall xs,
  Forall (fun y => lo <= y <= hi) xs ->
  lo * Z.of_nat (List.length xs) <= fold_right Z.add 0 xs
    <= hi * Z.of_nat (List.length xs).
Proof.
  induction 1 as [|y ys Hy _ IH]; [simpl; lia|].
  cbn [List.length fold_right]. rewrite Nat2Z.inj_succ. nia.
Qed.

Lemma mean_bounds x xs :
  (inject_Z (minimum (describe (x :: xs))) <= mean (describe (x :: xs))
   /\ mean (describe (x :: xs)) <= inject_Z (maximum (describe (x :: xs))))%Q.
Proof.
  destruct (describe_bounds x xs) as (B & _ & _).
  apply sum_bounds in B.
  set (lo := minimum (describe (x :: xs))) in *.
  set (hi := maximum (describe (x :: xs))) in *.
  unfold describe. cbn [mean]. unfold Qle, inject_Z. cbn [Qnum Qden].
  rewrite <- (positive_nat_Z (Pos.of_nat (List.length (x :: xs)))).
  rewrite Nat2Pos.id by (simpl; lia).
  lia.
Qed.

(** The head of a list sorted by [>=] is its greatest element. *)
Lemma Sorted_ge_head x xs :
  Sorted Z.ge (x :: xs) -> Forall (fun y => y <= x) xs.
Proof.
  intros S. apply Sorted_StronglySorted in S; [|intros a b c; lia].
  inversion S as [|? ? _ F]; subst.
  eapply Forall_impl; [|exact F]. intros a Ha. simpl in Ha. lia.
Qed.

End StatsFacts.



(* ================================================================== *)
(** * The command-line program *)
(* ================================================================== *)

Section InputFacts.

Variable O : Cli.Os.

Lemma filter_negb_nil {A} (p : A -> bool) : forall l,
  filter (fun a => negb (p a)) l = [] -> forallb p l = true.
Proof.
  induction l as [|a l IH]; simpl; [reflexivity|].
  destruct (p a); simpl; [exact IH|discriminate].
Qed.

Lemma read_input_inv file_path df :
  Cli.read_input O file_path = inr df ->
  Cli.path_exists O file_path = true /\
  ((str_endswith file_path ".csv" = true /\
    Cli.read_csv O file_path = Some df) \/
   (str_endswith file_path ".csv" = false /\
    str_endswith file_path ".json" = true /\
    Cli.read_json O file_path = Some df)).
Proof.
  unfold Cli.read_input.
  destruct (Cli.path_exists O file_path); simpl; [|discriminate].
  destruct (str_endswith file_path ".csv").
  - destruct (Cli.read_csv O file_path); [|discriminate].
    intros [= <-]. auto.
  - destruct (str_endswith file_path ".json"); [|discriminate].
    destruct (Cli.read_json O file_path); [|discriminate].
    intros [= <-]. auto.
Qed.

(** What [validate_input_file] has checked of the frame it returns. *)
Lemma validate_inv file_path df :
  Cli.validate_input_file O file_path = inr df ->
  Cli.read_input O file_path = inr df /\
  forallb (has_column df) Cli.required_cols = true /\
  columns df <> [] /\ records df <> [].
Proof.
  unfold Cli.validate_input_file.
  destruct (Cli.read_input O file_path) as [f|df0]; [discriminate|].
  destruct (filter _ Cli.required_cols) eqn:Missing; [|discriminate].
  apply filter_negb_nil in Missing.
  unfold Cli.df_empty.
  destruct (columns df0) eqn:C; [discriminate|].
  destruct (records df0) eqn:R; [discriminate|].
  intros [= <-]. rewrite C, R.
  repeat split; try discriminate. exact Missing.
Qed.

(** The checks of lines 39-47 are those of the three-step [main]. *)
Lemma validate_agrees file_path df :
  Cli.validate_input_file O file_path = inr df ->
  validate_input_file df = Ok df.
Proof.
  unfold Cli.validate_input_file, validate_input_file.
  destruct (Cli.read_input O file_path) as [f|df0]; [discriminate|].
  unfold Cli.required_cols.
  destruct (filter _ _) eqn:Missing; [|discriminate].
  unfold Cli.df_empty.
  destruct (columns df0) eqn:C; [discriminate|].
  destruct (records df0) eqn:R; [discriminate|].
  intros [= <-]. now rewrite Missing, C, R.
Qed.

End InputFacts.

Section ChartFacts.

Variable sort_desc : list Z -> list nat.

(** The charts draw the counts that the report lists: once the report has
    returned, [generate_visualizations] computes the same [value_counts()]
    and does not raise. *)
Lemma charts_after_report df report chart_type :
  generate_report sort_desc df = Ok report ->
  match filter offensive_row (records df) with
  | [] => Cli.generate_visualizations sort_desc df chart_type = Ok []
  | _ :: _ =>
      exists offense_counts,
        value_counts sort_desc
          (map (fun r => cell r "offense_type")
               (filter offensive_row (records df))) = Ok offense_counts /\
        Cli.generate_visualizations sort_desc df chart_type
        = Ok ((if among chart_type ["pie"; "both"]
               then [Cli.Figure "offense_types_pie.png" Cli.Pie offense_counts]
               else [])
              ++
              (if among chart_type ["bar"; "both"]
               then [Cli.Figure "offense_types_bar.png" Cli.Bar offense_counts]
               else []))%list
  end.
Proof.
  intros G. unfold generate_report in G.
  apply rbind_Ok in G as (flags & Fl & G).
  apply rbind_Ok in G as (share & _ & G).
  apply rbind_Ok in G as (detail & D & _).
  unfold Cli.generate_visualizations. rewrite Fl. cbn [rbind].
  change (records (df_filter (fun r => py_eq_True (cell r "is_offensive")) df))
    with (filter offensive_row (records df)) in *.
  destruct (filter offensive_row (records df)) as [|r rs] eqn:F;
    [reflexivity|].
  unfold breakdown in D.
  apply rbind_Ok in D as (kinds & K & D).
  apply rbind_Ok in D as (counts & C & _).
  rewrite K. cbn [rbind]. rewrite C. cbn [rbind].
  exists counts. split; [|reflexivity].
  unfold df_getitem in K.
  destruct (has_column _ "offense_type"); [|discriminate].
  injection K as <-. cbn [records df_filter] in C.
  change (filter (fun r => py_eq_True (cell r "is_offensive")) (records df))
    with (filter offensive_row (records df)) in C.
  now rewrite F in C.
Qed.

Lemma charts_return df report chart_type :
  generate_report sort_desc df = Ok report ->
  exists figures,
    Cli.generate_visualizations sort_desc df chart_type = Ok figures.
Proof.
  intros G. pose proof (charts_after_report df report chart_type G) as V.
  destruct (filter offensive_row (records df)).
  - eauto.
  - destruct V as (counts & _ & V). eauto.
Qed.

End ChartFacts.

(** X12. The charts follow the report: whenever [generate_report] returns on
    a frame, [generate_visualizations] on the same frame does not raise; it
    saves no figure when the report found no offensive record, and otherwise
    one figure per requested kind, each drawing the counts that the report
    lists, label by label and in the same order. *)
Theorem charts_follow_report (sort_desc : list Z -> list nat)
    (df : DataFrame) (report : Report) (chart_type : string) :
  generate_report sort_desc df = Ok report ->
  exists figures,
    Cli.generate_visualizations sort_desc df chart_type = Ok figures /\
    List.length figures
    = (if (offensive_found report =? 0)%nat then 0
       else (if among chart_type ["pie"; "both"] then 1 else 0)
            + (if among chart_type ["bar"; "both"] then 1 else 0))%nat /\
    forall labelled stats top,
      details report = Breakdown labelled stats top ->
      Forall (fun figure =>
                exists name kind offense_counts,
                  figure = Cli.Figure name kind offense_counts /\
                  Forall2 (fun oc ln => fst oc = PStr (fst ln) /\
                                        snd oc = snd ln)
                          offense_counts labelled)
             figures.
Proof.
  intros G.
  pose proof (charts_after_report sort_desc df report chart_type G) as V.
  apply generate_report_inv in G as (_ & _ & Found & _ & G).
  destruct (filter offensive_row (records df)) as [|r rs] eqn:F.
  - exists []. rewrite Found. split; [exact V|]. split; [reflexivity|].
    intros; constructor.
  - destruct V as (offense_counts & C & V).
    eexists. split; [exact V|]. split.
    + rewrite Found. cbn [List.length Nat.eqb]. rewrite length_app.
      now destruct (among chart_type ["pie"; "both"]),
                   (among chart_type ["bar"; "both"]).
    + intros labelled stats top D. rewrite D in G.
      apply breakdown_inv in G as (counts & xs & C' & L & _).
      cbn [records df_filter] in C'. rewrite F, C in C'.
      injection C' as ->.
      apply Forall_app. split.
      * destruct (among chart_type ["pie"; "both"]); constructor;
          [eauto 6|constructor].
      * destruct (among chart_type ["bar"; "both"]); constructor;
          [eauto 6|constructor].
Qed.

Lemma charts_follow_report_witness :
  exists analyzed_df w' report figures,
    process_comments scenario_env scenario 5 fresh = Ok (analyzed_df, w') /\
    generate_report sort_ties_reversed analyzed_df = Ok report /\
    Cli.generate_visualizations sort_ties_reversed analyzed_df "both"
    = Ok figures /\
    List.length figures = 2%nat.
Proof.
  destruct (process_comments scenario_env scenario 5 fresh)
    as [[analyzed_df w']|] eqn:P; [|vm_compute in P; discriminate].
  destruct (generate_report sort_ties_reversed analyzed_df)
    as [report|] eqn:G;
    [|vm_compute in P; injection P as <- _; vm_compute in G; discriminate].
  destruct (charts_follow_report sort_ties_reversed analyzed_df report "both" G)
    as (figures & V & Len & _).
  exists analyzed_df, w', report, figures.
  split; [reflexivity|]. split; [exact G|]. split; [exact V|].
  rewrite Len. vm_compute in P. injection P as <- _.
  vm_compute in G. injection G as <-. reflexivity.
Defined.

Section Runs.

Variable E : Env.
Variable O : Cli.Os.
Variable sort_desc : list Z -> list nat.

(** The frame of a returned batch on at least one comment. *)
Lemma batch_frame min_severity df w analyzed_df w' :
  process_comments E df min_severity w = Ok (analyzed_df, w') ->
  df <> [] ->
  forallb (has_column analyzed_df) record_fields = true /\
  records analyzed_df <> [].
Proof.
  intros P NE.
  pose proof (process_comments_length E min_severity _ _ _ _ P) as Len.
  unfold process_comments, bind, ret in P.
  destruct (process_rows_defined E min_severity df [] w (Forall_nil _))
    as [_ D].
  destruct (process_rows E min_severity df [] w) as [[rs w1]|] eqn:R;
    [|discriminate].
  injection P as <- <-. specialize (D rs w1 eq_refl).
  simpl in Len.
  assert (NR : rs <> [])
    by (destruct rs; [destruct df; [contradiction|discriminate]|discriminate]).
  split; [|exact NR].
  apply forallb_forall. intros c I.
  rewrite has_column_pd_DataFrame.
  destruct rs as [|r rs]; [contradiction|].
  simpl. inversion D as [|? ? Dr _]; subst.
  unfold defines in Dr. rewrite forallb_forall in Dr.
  now rewrite (Dr c I).
Qed.

Lemma batch_raises min_severity df w e :
  process_comments E df min_severity w = Raise e -> type_or_value e = true.
Proof.
  unfold process_comments, bind, ret. intros P.
  destruct (process_rows_defined E min_severity df [] w (Forall_nil _))
    as [R _].
  destruct (process_rows E min_severity df [] w) as [[rs w1]|e0];
    [discriminate|].
  injection P as ->. exact (R e eq_refl).
Qed.

Lemma report_after_batch min_severity df w analyzed_df w' e :
  process_comments E df min_severity w = Ok (analyzed_df, w') ->
  df <> [] ->
  generate_report sort_desc analyzed_df = Raise e ->
  type_or_attribute e = true.
Proof.
  intros P NE G.
  destruct (batch_frame _ _ _ _ _ P NE) as [Cols NR].
  apply (generate_report_raises sort_desc analyzed_df); [|exact NR|exact G].
  rewrite forallb_forall in Cols. apply forallb_forall.
  intros c I. apply Cols. simpl in I. simpl. intuition.
Qed.

Lemma iterrows_nonempty df : records df <> [] -> iterrows df <> [].
Proof. unfold iterrows. destruct (records df); [contradiction|discriminate]. Qed.

End Runs.



(** X14. What a successful run has done.  A run of [main] that returns read
    an existing file whose name ends in [.csv] or [.json]; the frame it read
    has the three required columns and at least one row; the report counts
    exactly the rows of that frame; the files written are the exports of the
    analyzed frame, one record per input row, followed by the figures, of
    which there is none for [--chart-type none]; and validation, moderation
    and report are those of the three-step [main]. *)
Theorem successful_run (E : Env) (O : Cli.Os) (sort_desc : list Z -> list nat)
    (args : Cli.Args) (w w' : World)
    (files : list Cli.Output) (report : Report) :
  Cli.main E O sort_desc args w = Cli.Returned w' files report ->
  exists df analyzed_df figures,
    Cli.path_exists O (Cli.input_file args) = true /\
    str_endswith (Cli.input_file args) ".csv"
      || str_endswith (Cli.input_file args) ".json" = true /\
    Cli.validate_input_file O (Cli.input_file args) = inr df /\
    forallb (has_column df) Cli.required_cols = true /\
    main E sort_desc df (Cli.min_severity args) w = Ok (report, w') /\
    process_comments E (iterrows df) (Cli.min_severity args) w
    = Ok (analyzed_df, w') /\
    List.length (records analyzed_df) = List.length (records df) /\
    total report = List.length (records df) /\
    (0 < total report)%nat /\
    files = (Cli.exports (Cli.output_format args)
                         (fst (Cli.splitext O (Cli.input_file args)))
                         analyzed_df ++ figures)%list /\
    (Cli.chart_type args = "none" -> figures = []) /\
    (offensive_found report = 0%nat -> figures = []).
Proof.
  unfold Cli.main. intros M.
  destruct (Cli.validate_input_file O (Cli.input_file args)) as [f0|df] eqn:V;
    [discriminate|].
  destruct (process_comments E (iterrows df) (Cli.min_severity args) w)
    as [[analyzed_df w1]|e] eqn:P; [|discriminate].
  cbv zeta in M.
  destruct (generate_report sort_desc analyzed_df) as [report0|e] eqn:G;
    [|discriminate].
  pose proof (charts_after_report sort_desc analyzed_df report0
                (Cli.chart_type args) G) as C.
  pose proof (validate_inv O _ _ V) as (R & Cols & _ & NR).
  pose proof (read_input_inv O _ _ R) as (Ex & Ext).
  pose proof (process_comments_length E _ _ _ _ _ P) as Len.
  unfold iterrows in Len. rewrite length_map in Len.
  pose proof (generate_report_inv sort_desc _ _ G) as (_ & T & Found & _ & _).
  assert (Main : main E sort_desc df (Cli.min_severity args) w
                 = Ok (report0, w1)).
  { unfold main, bind, lift. rewrite (validate_agrees O _ _ V), P, G.
    reflexivity. }
  assert (Pos : (0 < total report0)%nat).
  { rewrite T, Len. destruct (records df); [contradiction|simpl; lia]. }
  assert (Two : str_endswith (Cli.input_file args) ".csv"
                || str_endswith (Cli.input_file args) ".json" = true).
  { destruct Ext as [[-> _]|(-> & -> & _)]; reflexivity. }
  destruct (Cli.chart_type args =? "none")%string eqn:None; cbn [negb] in M.
  - injection M as <- <- <-. exists df, analyzed_df, [].
    rewrite app_nil_r, T, Len. repeat split; auto.
    now rewrite <- Len, <- T.
  - apply String.eqb_neq in None.
    destruct (filter offensive_row (records analyzed_df)) as [|r rs] eqn:F.
    + rewrite C in M. injection M as <- <- <-. exists df, analyzed_df, [].
      rewrite T, Len. repeat split; auto. now rewrite <- Len, <- T.
    + destruct C as (counts & _ & C). rewrite C in M.
      injection M as <- <- <-. exists df, analyzed_df. eexists.
      rewrite T, Len.
      repeat split; auto; try (now rewrite <- Len, <- T).
      * intros N. contradiction.
      * rewrite Found. discriminate.
Qed.

Lemma successful_run_witness :
  let O := disk [("data/in.json", input_frame scenario)] in
  let args := {| Cli.input_file := "data/in.json"; Cli.output_format := "csv";
                 Cli.chart_type := "bar"; Cli.min_severity := 5 |} in
  exists w' files report analyzed_df figures,
    Cli.main scenario_env O sort_ties_reversed args fresh
    = Cli.Returned w' files report /\
    total report = 3%nat /\
    files = (Cli.CsvFile "data/in_analyzed.csv" analyzed_df :: figures) /\
    List.length figures = 1%nat.
Proof.
  intros O args.
  destruct (Cli.main scenario_env O sort_ties_reversed args fresh)
    as [w' files report|f after files] eqn:M; [|vm_compute in M; discriminate].
  destruct (successful_run scenario_env O sort_ties_reversed args fresh w'
              files report M)
    as (df & analyzed_df & figures & _ & _ & V & _ & _ & _ & _ & T & _ & Fs & _).
  exists w', files, report, analyzed_df, figures.
  split; [reflexivity|].
  vm_compute in V. injection V as <-.
  split; [exact T|].
  split; [exact Fs|].
  apply (f_equal (@List.length _)) in Fs.
  vm_compute in M. injection M as _ <- _. simpl in Fs. lia.
Defined.
